(** * token-api: parameter normalisers, error formatter and usage-endpoint handler

    A shallow embedding of [src/utils.ts] (the normalisers and
    [APIErrorResponse]) and of the usage-endpoint handler of [index.ts],
    together with the properties the specification states about them. *)

From Stdlib Require Import ZArith String Ascii List Bool Lia.
From stdpp Require Import base option list strings gmap.

Set Warnings "-register-all".

Local Open Scope string_scope.
Local Open Scope Z_scope.

(* ===================================================================== *)
(** ** The JavaScript values and built-ins the code relies on *)
(* ===================================================================== *)

Module JS.

(** A JavaScript number, as far as these functions meet it: [NaN] (what a
    failed [parseInt] and an invalid [Date] produce) or an integer.  [Int z]
    stands for the double of value [z], and only for the safe integers
    ([|z| <= 2^53]) is it the number the engine computes with: they cover
    every valid [Date] time value and every timestamp of 10 or 13 digits.
    Fractions, infinities, the sign of zero and the integers beyond the safe
    range are outside the model; what is stated about numeric input is
    stated within these bounds. *)
Inductive number :=
| NaN
| Int (z : Z).

(** [T | null | undefined] *)
Inductive optional (A : Type) :=
| Undefined
| Null
| Defined (a : A).
Arguments Undefined {A}.
Arguments Null {A}.
Arguments Defined {A} a.

(** The union [string | number] of the optional parameters. *)
Definition Str {B : Type} (s : string) : optional (string + B) := Defined (inl s).
Definition Num {A : Type} (n : number) : optional (A + number) := Defined (inr n).

(** A function body either returns or throws [new Error(msg)]. *)
Inductive completion (A : Type) :=
| Return (a : A)
| Throw (msg : string).
Arguments Return {A} a.
Arguments Throw {A} msg.

(** ToBoolean on a string and on a number. *)
Definition truthy_string (s : string) : bool :=
  match s with
  | EmptyString => false
  | String _ _ => true
  end.

Definition truthy_number (n : number) : bool :=
  match n with
  | NaN => false
  | Int z => negb (z =? 0)
  end.

(** [a > b] and [a <= b] on numbers: every comparison with [NaN] is false. *)
Definition gt (a b : number) : bool :=
  match a, b with
  | Int x, Int y => y <? x
  | _, _ => false
  end.

Definition le (a b : number) : bool :=
  match a, b with
  | Int x, Int y => x <=? y
  | _, _ => false
  end.

Definition isInteger (n : number) : bool :=
  match n with
  | NaN => false
  | Int _ => true
  end.

(** [Math.floor(n / d)] for a positive integer [d].  On the safe integers the
    double quotient lies strictly between the two neighbouring integers
    whenever the division is inexact, so the floor is that of the exact
    quotient. *)
Definition floor_div (n : number) (d : Z) : number :=
  match n with
  | NaN => NaN
  | Int z => Int (z / d)
  end.

(** *** Strings (sequences of code units below 256) *)

(** [s.startsWith(p)] *)
Fixpoint startsWith (s p : string) {struct p} : bool :=
  match p with
  | EmptyString => true
  | String a p' =>
      match s with
      | EmptyString => false
      | String b s' => Ascii.eqb a b && startsWith s' p'
      end
  end.

(** [s.slice(n)] and [s.substring(n)] for a non-negative [n]. *)
Fixpoint slice (n : nat) (s : string) : string :=
  match n, s with
  | O, _ => s
  | S _, EmptyString => EmptyString
  | S k, String _ r => slice k r
  end.

(** [s.endsWith(p)] *)
Definition endsWith (s p : string) : bool :=
  let n := String.length s in
  let m := String.length p in
  (m <=? n)%nat && String.eqb (slice (n - m) s) p.

(** [s.replace(pat, rep)] with a string pattern: the first occurrence only,
    wherever it is. *)
Fixpoint replace (pat rep s : string) : string :=
  if startsWith s pat then rep ++ slice (String.length pat) s
  else match s with
       | EmptyString => EmptyString
       | String c r => String c (replace pat rep r)
       end.

(** [s.split(sep)] for a separator of one code unit. *)
Fixpoint split_go (sep : ascii) (s cur : string) : list string :=
  match s with
  | EmptyString => [cur]
  | String c r =>
      if Ascii.eqb c sep then cur :: split_go sep r EmptyString
      else split_go sep r (cur ++ String c EmptyString)
  end.

Definition split (sep : ascii) (s : string) : list string :=
  split_go sep s EmptyString.

(** [xs.join(sep)] *)
Fixpoint join (sep : string) (xs : list string) : string :=
  match xs with
  | [] => EmptyString
  | [x] => x
  | x :: rest => x ++ sep ++ join sep rest
  end.

(** [c.toLowerCase()] on one code unit, and on a string. *)
Definition lower (c : ascii) : ascii :=
  let n := nat_of_ascii c in
  if ((65 <=? n) && (n <=? 90))%nat then ascii_of_nat (n + 32) else c.

Fixpoint toLowerCase (s : string) : string :=
  match s with
  | EmptyString => EmptyString
  | String c r => String (lower c) (toLowerCase r)
  end.

(** The character class [[0-9]] and the test [/^[0-9]+$/]. *)
Definition isDigit (c : ascii) : bool :=
  let n := nat_of_ascii c in ((48 <=? n) && (n <=? 57))%nat.

Fixpoint allDigits (s : string) : bool :=
  match s with
  | EmptyString => true
  | String c r => isDigit c && allDigits r
  end.

Definition test_digits (s : string) : bool :=
  truthy_string s && allDigits s.

(** *** [parseInt(s)] without a radix

    Leading white space, a sign, the prefix "0x" or "0X" (radix 16, else
    10), then the longest run of digits of that radix; [NaN] when the run is
    empty.  The value is exact here, as it is in the engine up to [2^53];
    above, the engine rounds it to a double (and to infinity beyond the
    range of doubles), which is not modelled. *)

Definition isWhiteSpace (c : ascii) : bool :=
  let n := nat_of_ascii c in
  ((9 <=? n) && (n <=? 13) || (n =? 32) || (n =? 160))%nat.

Fixpoint trimStart (s : string) : string :=
  match s with
  | EmptyString => EmptyString
  | String c r => if isWhiteSpace c then trimStart r else s
  end.

Definition digitValue (c : ascii) : option Z :=
  let n := Z.of_nat (nat_of_ascii c) in
  if (48 <=? n) && (n <=? 57) then Some (n - 48)
  else if (97 <=? n) && (n <=? 122) then Some (n - 87)
  else if (65 <=? n) && (n <=? 90) then Some (n - 55)
  else None.

Definition radixDigit (R : Z) (c : ascii) : option Z :=
  match digitValue c with
  | Some d => if d <? R then Some d else None
  | None => None
  end.

(** The longest prefix of radix-[R] digits, as a number; [None] when it is
    empty. *)
Fixpoint parseDigits (R : Z) (s : string) (acc : option Z) : option Z :=
  match s with
  | EmptyString => acc
  | String c r =>
      match radixDigit R c with
      | Some d => parseDigits R r (Some (R * default 0 acc + d))
      | None => acc
      end
  end.

Definition parseInt (s : string) : number :=
  let s1 := trimStart s in
  let '(sign, s2) :=
    match s1 with
    | String c r =>
        if Ascii.eqb c "-" then (-1, r)
        else if Ascii.eqb c "+" then (1, r)
        else (1, s1)
    | EmptyString => (1, s1)
    end in
  let '(R, s3) :=
    if startsWith s2 "0x" || startsWith s2 "0X"
    then (16, slice 2 s2) else (10, s2) in
  match parseDigits R s3 None with
  | None => NaN
  | Some m => Int (sign * m)
  end.

(** *** [n.toString()]

    [NaN], or the decimal digits with a minus sign for a negative number.
    This is the rendering of the engine for the safe integers; from [10^21]
    on the engine writes an exponent instead, which is not modelled. *)

Definition digitChar (d : Z) : ascii := ascii_of_nat (48 + Z.to_nat d).

Fixpoint digits_go (fuel : nat) (n : Z) (acc : string) : string :=
  let acc' := String (digitChar (n mod 10)) acc in
  match fuel with
  | O => acc'
  | S f => if n <? 10 then acc' else digits_go f (n / 10) acc'
  end.

(** Decimal digits of a non-negative integer. *)
Definition digits (n : Z) : string :=
  digits_go (Z.to_nat (Z.log2 n)) n EmptyString.

Definition toString (n : number) : string :=
  match n with
  | NaN => "NaN"
  | Int z => if z <? 0 then String "-"%char (digits (- z)) else digits z
  end.

End JS.


(* ===================================================================== *)
(** ** [src/utils.ts] *)
(* ===================================================================== *)

Module Utils.
Import JS.

(** *** [APIErrorResponse] *)

(** [APIError] of [zod.gen.ts]: the record sent to the client. *)
Record APIError := {
  status : Z;
  code : string;
  message : string
}.

(** A segment of a Zod issue path: an object key or an array index. *)
Inductive segment :=
| Key (k : string)
| Index (i : N).

Definition segment_toString (p : segment) : string :=
  match p with
  | Key k => k
  | Index i => digits (Z.of_N i)
  end.

Record ZodIssue := {
  issue_code : string;
  issue_path : list segment;
  issue_message : string
}.

(** What [err: unknown] can be, by the tests the function applies in order:
    a string, a [ZodError], another [Error], anything else. *)
Inductive thrown :=
| ErrString (s : string)
| ErrZod (issues : list ZodIssue)
| ErrError (msg : string)
| ErrOther.

(** The request context: [ctx.req.path], [ctx.req.param()], [ctx.req.query()]. *)
Record Context := {
  req_path : string;
  req_param : gmap string string;
  req_query : gmap string string
}.

(** The two collaborators the function writes to: the entries passed to
    [logger.error], oldest first, and the [request_error] counter with its
    labels [{pathname, status}]. *)
Record world := {
  logged : list APIError;
  request_error : gmap (string * Z) nat
}.

(** [Counter.inc(labels)] *)
Definition inc (labels : string * Z) (c : gmap (string * Z) nat)
  : gmap (string * Z) nat :=
  <[labels := S (default O (c !! labels))]> c.

(** [ctx.json(body, status)] *)
Record Response := {
  body : APIError;
  http_status : Z
}.

(** [`[${issue.code}] ${issue.path.join('/')}: ${issue.message}`] *)
Definition render_issue (issue : ZodIssue) : string :=
  "[" ++ issue_code issue ++ "] "
      ++ join "/" (map segment_toString (issue_path issue))
      ++ ": " ++ issue_message issue.

Definition error_message (err : thrown) : string :=
  match err with
  | ErrString s => s
  | ErrZod issues => join (String (ascii_of_nat 10) "") (map render_issue issues)
  | ErrError msg => msg
  | ErrOther => "An unexpected error occured"
  end.

Definition APIErrorResponse (ctx : Context) (status : Z) (code : string)
    (err : thrown) (w : world) : Response * world :=
  let message := error_message err in
  let api_error := {| status := status; code := code; message := message |} in
  let w1 := {| logged := logged w ++ [api_error];
               request_error := request_error w |} in
  let w2 := {| logged := logged w1;
               request_error := inc (req_path ctx, status) (request_error w1) |} in
  ({| body := api_error; http_status := status |}, w2).

(** *** [formatAddress] *)

Definition formatAddress (address : optional string) : optional string :=
  match address with
  | Defined s =>
      if negb (truthy_string s) then Undefined
      else if startsWith s "0x" then Defined (slice 2 s)
      else Defined s
  | _ => Undefined
  end.

(** *** [parseLimit]; [maxLimit] is [config.maxLimit] *)

Definition parseLimit (maxLimit : number)
    (limit : optional (string + number)) (defaultLimit : optional number)
  : number :=
  let value := Int 1 in
  let value :=
    match defaultLimit with
    | Defined d => if truthy_number d then d else value
    | _ => value
    end in
  let value :=
    match limit with
    | Defined (inl s) => if truthy_string s then parseInt s else value
    | Defined (inr n) => if truthy_number n then n else value
    | _ => value
    end in
  if gt value maxLimit then maxLimit else value.

(** *** [parseBlockId] *)

Definition parseBlockId (block_id : optional string) : optional string :=
  match block_id with
  | Defined s => if truthy_string s then Defined (replace "0x" "" s) else Undefined
  | _ => Undefined
  end.

(** *** [parseTimestamp]

    [Date_parse] is the time value of [new Date(string)]: milliseconds since
    the epoch, or [NaN] for an invalid date.  Which strings beyond the
    ISO format it accepts is left to the engine, so it is a parameter. *)

Section ParseTimestamp.
Variable Date_parse : string -> number.

(** The branch [typeof timestamp === "number"]. *)
Definition parseTimestamp_number (timestamp : number)
  : completion (optional number) :=
  let length := String.length (toString timestamp) in
  if (length =? 10)%nat then Return (Defined timestamp)
  else if (length =? 13)%nat then Return (Defined (floor_div timestamp 1000))
  else Throw "Invalid timestamp".

(** [timestamp += "Z"] unless it ends with one. *)
Definition with_utc_marker (timestamp : string) : string :=
  if negb (endsWith timestamp "Z") then timestamp ++ "Z" else timestamp.

(** The recursive call of the source always passes a number, so it is the
    number branch. *)
Definition parseTimestamp (timestamp : optional (string + number))
  : completion (optional number) :=
  match timestamp with
  | Defined (inl s) =>
      if test_digits s then parseTimestamp_number (parseInt s)
      else Return (Defined (floor_div (Date_parse (with_utc_marker s)) 1000))
  | Defined (inr n) => parseTimestamp_number n
  | _ => Return Undefined
  end.

End ParseTimestamp.

End Utils.

(* ===================================================================== *)
(** ** [index.ts]: the handler that [createUsageEndpoint] registers *)
(* ===================================================================== *)

Module Index.
Import JS Utils.

(** Values of a parameter object, before and after validation. *)
Inductive jsval :=
| VUndefined
| VNull
| VBool (b : bool)
| VNum (n : number)
| VStr (s : string)
| VArr (items : list jsval).

(** The result of [schema.safeParse(input)]. *)
Inductive SafeParseResult :=
| Success (data : gmap string jsval)
| Failure (issues : list ZodIssue).

(** A Zod schema of [zod.gen.ts], seen through [safeParse]. *)
Definition schema : Type := gmap string jsval -> SafeParseResult.

(** [z.unknown()] accepts its input as it is. *)
Definition z_unknown : schema := Success.

(** [paths[endpoint]["get"]["parameters"]]; either schema may be undefined. *)
Record parameters := {
  path : option schema;
  query : option schema
}.

(** The object of [ctx.req.param()] and [ctx.req.query()]: every value is a
    string. *)
Definition raw_object (q : gmap string string) : gmap string jsval :=
  VStr <$> q.

(** The function given to [z.preprocess]. *)
Definition preprocess (q : gmap string string) : gmap string jsval :=
  match q !! "block_range" with
  | Some r =>
      if truthy_string r
      then <["block_range" := VArr (VStr <$> split ","%char r)]> (raw_object q)
      else raw_object q
  | None => raw_object q
  end.

Definition addresses : list string := ["contract"; "account"; "from"; "to"].

(** One turn of the loop of the post-processing function. *)
Definition strip_prop (q : gmap string jsval) (prop : string)
  : gmap string jsval :=
  match q !! prop with
  | Some (VStr s) =>
      if truthy_string s && startsWith (toLowerCase s) "0x"
      then <[prop := VStr (slice 2 s)]> q
      else q
  | _ => q
  end.

(** What one turn of the loop leaves in the field it visits. *)
Definition strip_value (v : jsval) : jsval :=
  match v with
  | VStr s =>
      if truthy_string s && startsWith (toLowerCase s) "0x"
      then VStr (slice 2 s) else v
  | _ => v
  end.

(** The function given to [.transform]. *)
Definition transform (q : gmap string jsval) : gmap string jsval :=
  fold_left strip_prop addresses q.

(** [z.preprocess(f, inner).transform(g).safeParse(q)]: [inner] validates
    [f(q)], and [g] runs on its output only when validation succeeded. *)
Definition query_params_schema (inner : schema) (q : gmap string string)
  : SafeParseResult :=
  match inner (preprocess q) with
  | Success data => Success (transform data)
  | Failure issues => Failure issues
  end.

(** [result.error?.issues] *)
Definition error_issues (r : SafeParseResult) : option (list ZodIssue) :=
  match r with
  | Success _ => None
  | Failure issues => Some issues
  end.

(** [e.addIssues(subs)], whose parameter defaults to the empty array. *)
Definition addIssues (e : list ZodIssue) (subs : option (list ZodIssue))
  : list ZodIssue :=
  e ++ default [] subs.

(** The handler either hands over to [makeUsageQuery(ctx, endpoint, params)]
    or answers itself. *)
Inductive outcome :=
| MakeUsageQuery (endpoint : string) (params : gmap string jsval)
| Respond (r : Response).

Section Handler.
Variable paths : string -> parameters.

Definition path_params_of (endpoint : string) (ctx : Context)
  : SafeParseResult :=
  default z_unknown (path (paths endpoint)) (raw_object (req_param ctx)).

Definition query_params_of (endpoint : string) (ctx : Context)
  : SafeParseResult :=
  query_params_schema (default z_unknown (query (paths endpoint)))
                      (req_query ctx).

(** The merged [ZodError] of the failure branch. *)
Definition merged_issues (path_params query_params : SafeParseResult)
  : list ZodIssue :=
  addIssues (addIssues [] (error_issues path_params))
            (error_issues query_params).

Definition handler (endpoint : string) (ctx : Context) (w : world)
  : outcome * world :=
  let path_params := path_params_of endpoint ctx in
  let query_params := query_params_of endpoint ctx in
  match path_params, query_params with
  | Success path_data, Success query_data =>
      (* { ...path_params.data, ...query_params.data } *)
      (MakeUsageQuery endpoint (query_data ∪ path_data), w)
  | _, _ =>
      let e := merged_issues path_params query_params in
      let '(r, w') := APIErrorResponse ctx 400 "bad_query_input" (ErrZod e) w in
      (Respond r, w')
  end.

End Handler.

End Index.

(* ===================================================================== *)
(** ** One admissible [Date.parse]

    The date-time format every engine must accept, with its time zone:
    [YYYY-MM-DDTHH:mm:ss] or [YYYY-MM-DDTHH:mm:ss.sss] followed by [Z] or by
    an offset [+HH:mm] or [-HH:mm]; every other string is an invalid date. *)
(* ===================================================================== *)

Module IsoDate.
Import JS.

(** Exactly [n] digits, as a number, and the rest of the string. *)
Fixpoint number_of (n : nat) (s : string) (acc : Z) : option (Z * string) :=
  match n with
  | O => Some (acc, s)
  | S k =>
      match s with
      | String c r =>
          if isDigit c
          then number_of k r (10 * acc + (Z.of_nat (nat_of_ascii c) - 48))
          else None
      | EmptyString => None
      end
  end.

Definition expect (c : ascii) (s : string) : option string :=
  match s with
  | String c' r => if Ascii.eqb c c' then Some r else None
  | EmptyString => None
  end.

Definition isLeap (y : Z) : bool :=
  (y mod 4 =? 0) && (negb (y mod 100 =? 0) || (y mod 400 =? 0)).

Definition daysInMonth (y m : Z) : Z :=
  if m =? 2 then (if isLeap y then 29 else 28)
  else if (m =? 4) || (m =? 6) || (m =? 9) || (m =? 11) then 30
  else 31.

(** Days from 1970-01-01 to the given civil date. *)
Definition daysFromCivil (y m d : Z) : Z :=
  let y' := if m <=? 2 then y - 1 else y in
  let era := y' / 400 in
  let yoe := y' - era * 400 in
  let mp := (m + 9) mod 12 in
  let doy := (153 * mp + 2) / 5 + d - 1 in
  let doe := yoe * 365 + yoe / 4 - yoe / 100 + doy in
  era * 146097 + doe - 719468.

Definition fraction (s : string) : option (Z * string) :=
  match s with
  | String "."%char r => number_of 3 r 0
  | _ => Some (0, s)
  end.

(** The time zone, in minutes east of UTC. *)
Definition zone (s : string) : option (Z * string) :=
  match s with
  | String c r =>
      if Ascii.eqb c "Z" then Some (0, r)
      else if Ascii.eqb c "+" || Ascii.eqb c "-"
      then '(h, r) ← number_of 2 r 0;
           r ← expect ":" r;
           '(m, r) ← number_of 2 r 0;
           if (h <=? 23) && (m <=? 59)
           then Some ((if Ascii.eqb c "+" then 1 else -1) * (60 * h + m), r)
           else None
      else None
  | EmptyString => None
  end.

Definition parse_fields (s : string) : option Z :=
  '(y, s) ← number_of 4 s 0;
  s ← expect "-" s;
  '(mo, s) ← number_of 2 s 0;
  s ← expect "-" s;
  '(d, s) ← number_of 2 s 0;
  s ← expect "T" s;
  '(h, s) ← number_of 2 s 0;
  s ← expect ":" s;
  '(mi, s) ← number_of 2 s 0;
  s ← expect ":" s;
  '(sec, s) ← number_of 2 s 0;
  '(ms, s) ← fraction s;
  '(offset, s) ← zone s;
  if truthy_string s then None
  else if (1 <=? mo) && (mo <=? 12) && (1 <=? d) && (d <=? daysInMonth y mo)
          && (h <=? 23) && (mi <=? 59) && (sec <=? 59)
  then Some ((((daysFromCivil y mo d * 24 + h) * 60 + mi - offset) * 60 + sec)
               * 1000 + ms)
  else None.

Definition Date_parse (s : string) : number :=
  match parse_fields s with
  | Some t => Int t
  | None => NaN
  end.

End IsoDate.


(* ===================================================================== *)
(** ** A small endpoint, for concrete runs of the handler

    [/balances/{address}]: the path schema asks for a string [address], the
    query schema for a string [contract] that begins with "0x". *)
(* ===================================================================== *)

Module Sample.
Import JS Utils Index.

Definition required (name : string) : ZodIssue :=
  {| issue_code := "invalid_type";
     issue_path := [Key name];
     issue_message := "Required" |}.

Definition invalid_address (name : string) : ZodIssue :=
  {| issue_code := "invalid_string";
     issue_path := [Key name];
     issue_message := "Invalid" |}.

Definition path_schema : schema :=
  fun o =>
    match o !! "address" with
    | Some (VStr _) => Success o
    | _ => Failure [required "address"]
    end.

Definition query_schema : schema :=
  fun o =>
    match o !! "contract" with
    | Some (VStr s) =>
        if startsWith s "0x" then Success o
        else Failure [invalid_address "contract"]
    | _ => Failure [required "contract"]
    end.

Definition paths (endpoint : string) : parameters :=
  {| path := Some path_schema; query := Some query_schema |}.

Definition endpoint : string := "/balances/{address}".

Definition request (param query : gmap string string) : Context :=
  {| req_path := "/balances/x"; req_param := param; req_query := query |}.

Definition idle : world := {| logged := []; request_error := ∅ |}.

(** A request that matches no route. *)
Definition not_found : Context :=
  {| req_path := "/nope"; req_param := ∅; req_query := ∅ |}.

End Sample.

(** The number a string of decimal digits denotes, read left to right. *)
Module Decimal.
Import JS.

Fixpoint value_go (s : string) (acc : Z) : Z :=
  match s with
  | EmptyString => acc
  | String c r => value_go r (10 * acc + (Z.of_nat (nat_of_ascii c) - 48))
  end.

Definition value (s : string) : Z := value_go s 0.

End Decimal.

(** [s.includes(p)] *)
Module Search.
Import JS.

Fixpoint includes (s p : string) : bool :=
  startsWith s p ||
  match s with
  | EmptyString => false
  | String _ r => includes r p
  end.

End Search.

(* ===================================================================== *)
(** ** [src/utils.ts]: [getAddress] and [checkValidAddress] *)
(* ===================================================================== *)

Module Address.
Import JS.

Section GetAddress.
(** [ethers.isAddress] on a string; on a value that is not a string it
    answers false. *)
Variable isAddress : string -> bool.

Definition checkValidAddress (address : optional string) : completion unit :=
  match address with
  | Defined a =>
      if negb (isAddress a) then Throw "Invalid address" else Return tt
  | _ => Throw "Invalid address"
  end.

Definition getAddress (address key : string) (required : bool)
  : completion string :=
  if required && negb (truthy_string address)
  then Throw ("Missing [" ++ key ++ "] parameter")
  else if truthy_string address
       then match checkValidAddress (Defined address) with
            | Throw msg => Throw msg
            | Return _ => Return address
            end
       else Return address.

End GetAddress.

(** A stand-in for [ethers.isAddress] in concrete runs: "0x" and 40
    hexadecimal digits. *)
Definition isHexDigit (c : ascii) : bool :=
  match digitValue c with
  | Some d => d <? 16
  | None => false
  end.

Fixpoint allHex (s : string) : bool :=
  match s with
  | EmptyString => true
  | String c r => isHexDigit c && allHex r
  end.

Definition isHexAddress (s : string) : bool :=
  startsWith s "0x" && (String.length s =? 42)%nat && allHex (slice 2 s).

End Address.

(* ===================================================================== *)
(** ** [index.ts]: route patterns and the fixed endpoints *)
(* ===================================================================== *)

Module Routes.
Import JS Utils.

(** [endpoint.replace(/{([^}]+)}/g, ":$1")].  [pending] holds what has been
    read since an opening brace that is still waiting for its closing one:
    a brace with nothing in it, or without a closing brace, matches
    nowhere and stays as it is. *)
Fixpoint toHonoPath_go (s : string) (pending : option string) : string :=
  match s with
  | EmptyString =>
      match pending with
      | None => EmptyString
      | Some name => String "{" name
      end
  | String c r =>
      match pending with
      | None =>
          if Ascii.eqb c "{" then toHonoPath_go r (Some EmptyString)
          else String c (toHonoPath_go r None)
      | Some name =>
          if Ascii.eqb c "}"
          then (if truthy_string name
                then String ":" (name ++ toHonoPath_go r None)
                else String "{" (String "}" (toHonoPath_go r None)))
          else toHonoPath_go r (Some (name ++ String c EmptyString))
      end
  end.

Definition toHonoPath (endpoint : string) : string :=
  toHonoPath_go endpoint None.

(** [s.includes(c)] for one code unit. *)
Fixpoint hasChar (c : ascii) (s : string) : bool :=
  match s with
  | EmptyString => false
  | String d r => Ascii.eqb d c || hasChar c r
  end.

(** A row of [MonitoringHeadQueryResponseSchema]. *)
Record head_row := {
  block_num : Z;
  block_hash : string
}.

(** What a fixed endpoint answers: an API error, the head row as JSON, a
    plain text body, or nothing at all (the handler returned undefined). *)
Inductive reply :=
| ReplyError (r : Response)
| ReplyHead (row : head_row)
| ReplyText (text : string)
| ReplyNothing.

(** [GET /head]; [result] is what [makeQuery] gave: the rows of [.data], or
    the value it threw. *)
Definition head (result : thrown + list head_row) (ctx : Context) (w : world)
  : reply * world :=
  match result with
  | inr data =>
      match data with
      | row :: _ => (ReplyHead row, w)
      | [] => (ReplyNothing, w)
      end
  | inl err =>
      let '(r, w') := APIErrorResponse ctx 500 "bad_database_response" err w in
      (ReplyError r, w')
  end.

(** The result of [client.ping()]: success, or [response.error.message]. *)
Inductive ping_result :=
| PingSuccess
| PingFailure (error_message : string).

(** [GET /health] *)
Definition health (response : ping_result) (ctx : Context) (w : world)
  : reply * world :=
  match response with
  | PingFailure msg =>
      let '(r, w') :=
        APIErrorResponse ctx 500 "bad_database_response" (ErrString msg) w in
      (ReplyError r, w')
  | PingSuccess => (ReplyText "OK", w)
  end.

(** [app.notFound]; [method] is [ctx.req.method]. *)
Definition notFound (method : string) (ctx : Context) (w : world)
  : Response * world :=
  APIErrorResponse ctx 404 "route_not_found"
    (ErrString ("Path not found: " ++ method ++ " " ++ req_path ctx)) w.

(** What it means that the error response [r] sent for [ctx] has been
    recorded on the way from [w] to [w']: the record carries the HTTP
    status, it is the one new entry of the log, and the counter of the
    request path and status is one higher. *)
Definition error_recorded (ctx : Context) (w w' : world) (r : Response)
  : Prop :=
  status (body r) = http_status r /\
  logged w' = (logged w ++ [body r])%list /\
  request_error w' !! (req_path ctx, http_status r)
    = Some (S (default O (request_error w !! (req_path ctx, http_status r)))).

End Routes.

(* ===================================================================== *)
(** ** The token-transfers route ([/:address]) *)
(* ===================================================================== *)

Module Transfers.
Import JS.

Definition MODULE_HASH : string := "5b21ee0834a2c082a0befea1b71f771dc87d0f5e".

Definition nl : string := String "010" EmptyString.

(** [config.database ?? `${chain_id}:${MODULE_HASH}`] *)
Definition TABLE (database : option string) (chain_id : string) : string :=
  match database with
  | Some db => db
  | None => chain_id ++ ":" ++ MODULE_HASH
  end.

(** The text before and after [${TABLE}] in the template of the query. *)
Definition query_head : string :=
  join nl [ "";
            "    SELECT";
            "        concat('0x', contract) as contract,";
            "        concat('0x', from) as from,";
            "        concat('0x', to) as to,";
            "        CAST(value, 'String') AS value,";
            "        toUnixTimestamp(timestamp) as timestamp,";
            "        date";
            "    FROM " ].

Definition query_tail : string :=
  join nl [ ".transfers";
            "    WHERE from = {address: String} OR to = {address: String}";
            "    ORDER BY block_num DESC" ].

(** The arguments of [makeUsageQuery(c, [query], { address })]. *)
Record usage_call := {
  queries : list string;
  params : gmap string string
}.

(** The handler; [query_chain_id] is [c.req.query("chain_id")] and [address]
    is [c.req.param("address")]. *)
Definition route (database : option string)
    (query_chain_id : option string) (address : string) : usage_call :=
  let chain_id :=
    match query_chain_id with
    | Some id => id
    | None => "mainnet"
    end in
  let table := TABLE database chain_id in
  let query := query_head ++ table ++ query_tail in
  {| queries := [query]; params := {["address" := address]} |}.

End Transfers.

(* ===================================================================== *)
(** ** Properties of the built-ins *)
(* ===================================================================== *)

Module JSFacts.
Import JS.

Lemma startsWith_0x_inv (s : string) :
  startsWith s "0x" = true -> exists r, s = String "0" (String "x" r).
Proof.
  destruct s as [|a [|b r]]; cbn [startsWith]; try discriminate.
  - now rewrite andb_false_r.
  - rewrite andb_true_r.
    intros [Ha Hb]%andb_true_iff.
    apply Ascii.eqb_eq in Ha, Hb. subst. now exists r.
Qed.

Lemma startsWith_0x_cons (r : string) :
  startsWith (String "0" (String "x" r)) "0x" = true.
Proof. reflexivity. Qed.

Lemma truthy_string_true (s : string) :
  truthy_string s = true <-> s <> "".
Proof. destruct s; simpl; split; congruence. Qed.

(** *** Length of the decimal rendering *)

Lemma pow10_succ (k : nat) : 10 ^ Z.of_nat (S k) = 10 * 10 ^ Z.of_nat k.
Proof. rewrite Nat2Z.inj_succ, Z.pow_succ_r by lia. reflexivity. Qed.

Lemma pow10_pos (k : nat) : 0 < 10 ^ Z.of_nat k.
Proof. apply Z.pow_pos_nonneg; lia. Qed.

Lemma digits_go_length_le (fuel : nat) :
  forall (n : Z) (acc : string) (k : nat),
    0 <= n < 10 ^ Z.of_nat (S k) ->
    (String.length (digits_go fuel n acc) <= S k + String.length acc)%nat.
Proof.
  induction fuel as [|f IH]; intros n acc k Hn; simpl.
  - lia.
  - destruct (Z.ltb_spec n 10) as [Hlt|Hge]; simpl; [lia|].
    destruct k as [|k'].
    + change (10 ^ Z.of_nat 1) with 10 in Hn. lia.
    + rewrite pow10_succ in Hn.
      assert (Hq : 0 <= n / 10 < 10 ^ Z.of_nat (S k')).
      { split; [apply Z.div_pos; lia|].
        apply Z.div_lt_upper_bound; lia. }
      specialize (IH (n / 10) (String (digitChar (n mod 10)) acc) k' Hq).
      simpl in IH. lia.
Qed.

Lemma digits_go_length_ge (fuel : nat) :
  forall (n : Z) (acc : string) (k : nat),
    10 ^ Z.of_nat k <= n -> (k <= fuel)%nat ->
    (S k + String.length acc <= String.length (digits_go fuel n acc))%nat.
Proof.
  induction fuel as [|f IH]; intros n acc k Hn Hk; simpl.
  - lia.
  - destruct (Z.ltb_spec n 10) as [Hlt|Hge]; simpl.
    + destruct k as [|k']; [lia|].
      rewrite pow10_succ in Hn. pose proof (pow10_pos k'). lia.
    + destruct k as [|k'].
      * assert (Hq : 10 ^ Z.of_nat 0 <= n / 10).
        { change (10 ^ Z.of_nat 0) with 1.
          apply Z.div_le_lower_bound; lia. }
        specialize (IH (n / 10) (String (digitChar (n mod 10)) acc) O Hq
                       (Nat.le_0_l f)).
        simpl in IH. lia.
      * rewrite pow10_succ in Hn.
        assert (Hq : 10 ^ Z.of_nat k' <= n / 10).
        { apply Z.div_le_lower_bound; lia. }
        assert (Hk' : (k' <= f)%nat) by lia.
        specialize (IH (n / 10) (String (digitChar (n mod 10)) acc) k' Hq Hk').
        simpl in IH. lia.
Qed.

Lemma pow2_le_pow10 (k : nat) : 2 ^ Z.of_nat k <= 10 ^ Z.of_nat k.
Proof. apply Z.pow_le_mono_l; lia. Qed.

Lemma digits_length_le (n : Z) (k : nat) :
  0 <= n < 10 ^ Z.of_nat (S k) -> (String.length (digits n) <= S k)%nat.
Proof.
  intros Hn. unfold digits.
  pose proof (digits_go_length_le (Z.to_nat (Z.log2 n)) n "" k Hn) as H.
  simpl in H. lia.
Qed.

Lemma digits_length_ge (n : Z) (k : nat) :
  10 ^ Z.of_nat k <= n -> (S k <= String.length (digits n))%nat.
Proof.
  intros Hn. unfold digits.
  assert (Hfuel : (k <= Z.to_nat (Z.log2 n))%nat).
  { pose proof (pow2_le_pow10 k) as H2.
    assert (Z.of_nat k <= Z.log2 n).
    { apply Z.log2_le_pow2; [pose proof (pow10_pos k)|]; lia. }
    lia. }
  pose proof (digits_go_length_ge _ n "" k Hn Hfuel) as H.
  simpl in H. lia.
Qed.

(** A non-negative integer has [k+1] digits exactly when it lies in
    [[10^k, 10^(k+1))], for [k >= 1]. *)
Lemma digits_length_iff (n : Z) (k : nat) :
  0 <= n -> (1 <= k)%nat ->
  String.length (digits n) = S k <->
  10 ^ Z.of_nat k <= n < 10 ^ Z.of_nat (S k).
Proof.
  intros Hn Hk. split.
  - intros Hlen. split.
    + destruct (Z.le_gt_cases (10 ^ Z.of_nat k) n) as [|Hlt]; [assumption|].
      destruct k as [|k']; [lia|].
      pose proof (digits_length_le n k' (conj Hn Hlt)). lia.
    + destruct (Z.lt_ge_cases n (10 ^ Z.of_nat (S k))) as [|Hge]; [assumption|].
      pose proof (digits_length_ge n (S k) Hge). lia.
  - intros [Hlo Hhi].
    pose proof (digits_length_le n k (conj Hn Hhi)).
    pose proof (digits_length_ge n k Hlo). lia.
Qed.

(** *** [parseInt] on a string of decimal digits *)

Lemma isDigit_range (c : ascii) :
  isDigit c = true <-> (48 <= nat_of_ascii c <= 57)%nat.
Proof.
  unfold isDigit. rewrite andb_true_iff, !Nat.leb_le. reflexivity.
Qed.

Lemma eqb_code_neq (c d : ascii) :
  nat_of_ascii c <> nat_of_ascii d -> Ascii.eqb c d = false.
Proof. intros H. apply Ascii.eqb_neq. congruence. Qed.

Lemma isDigit_not_space (c : ascii) : isDigit c = true -> isWhiteSpace c = false.
Proof.
  rewrite isDigit_range. intros H. unfold isWhiteSpace.
  destruct (Nat.leb_spec 9 (nat_of_ascii c)), (Nat.leb_spec (nat_of_ascii c) 13),
    (Nat.eqb_spec (nat_of_ascii c) 32), (Nat.eqb_spec (nat_of_ascii c) 160);
    simpl; try reflexivity; lia.
Qed.

Lemma radixDigit_decimal (c : ascii) :
  isDigit c = true ->
  radixDigit 10 c = Some (Z.of_nat (nat_of_ascii c) - 48).
Proof.
  rewrite isDigit_range. intros H. unfold radixDigit, digitValue.
  destruct (Z.leb_spec 48 (Z.of_nat (nat_of_ascii c))); [|lia].
  destruct (Z.leb_spec (Z.of_nat (nat_of_ascii c)) 57); [|lia].
  simpl.
  destruct (Z.ltb_spec (Z.of_nat (nat_of_ascii c) - 48) 10); [reflexivity|lia].
Qed.

Lemma parseDigits_decimal (s : string) :
  forall acc : Z,
    allDigits s = true ->
    parseDigits 10 s (Some acc) = Some (Decimal.value_go s acc).
Proof.
  induction s as [|c r IH]; intros acc Hs; simpl in *.
  - reflexivity.
  - apply andb_true_iff in Hs as [Hc Hr].
    rewrite (radixDigit_decimal c Hc). now apply IH.
Qed.

Lemma allDigits_no_marker (c a x : ascii) (r : string) :
  allDigits r = true -> isDigit x = false ->
  startsWith (String c r) (String a (String x "")) = false.
Proof.
  intros Hr Hx.
  destruct r as [|d r]; cbn [startsWith allDigits] in *.
  - apply andb_false_r.
  - apply andb_true_iff in Hr as [Hd _].
    assert (Hne : Ascii.eqb x d = false).
    { apply Ascii.eqb_neq. intros ->. congruence. }
    rewrite Hne. apply andb_false_r.
Qed.

Lemma parseInt_digits (s : string) :
  test_digits s = true -> parseInt s = Int (Decimal.value s).
Proof.
  unfold test_digits. intros [Hne Hs]%andb_true_iff.
  destruct s as [|c r]; [discriminate|].
  cbn [allDigits] in Hs. apply andb_true_iff in Hs as [Hc Hr].
  pose proof (proj1 (isDigit_range c) Hc) as Hrange.
  unfold parseInt. cbn [trimStart].
  rewrite (isDigit_not_space c Hc).
  rewrite (eqb_code_neq c "-") by (change (nat_of_ascii "-") with 45%nat; lia).
  rewrite (eqb_code_neq c "+") by (change (nat_of_ascii "+") with 43%nat; lia).
  rewrite (allDigits_no_marker c "0" "x" r Hr eq_refl).
  rewrite (allDigits_no_marker c "0" "X" r Hr eq_refl). cbn [orb parseDigits].
  rewrite (radixDigit_decimal c Hc).
  rewrite (parseDigits_decimal r _ Hr).
  unfold Decimal.value. cbn [Decimal.value_go default].
  f_equal. lia.
Qed.

(** *** [endsWith] *)

Lemma slice_length_append (r t : string) :
  slice (String.length r) (r ++ t) = t.
Proof.
  induction r as [|c r IH]; [reflexivity|].
  change (String c r ++ t) with (String c (r ++ t)).
  cbn [String.length slice]. exact IH.
Qed.

Lemma length_append_char (r : string) (c : ascii) :
  String.length (r ++ String c "") = S (String.length r).
Proof.
  induction r as [|d r IH]; [reflexivity|].
  change (String d r ++ String c "") with (String d (r ++ String c "")).
  cbn [String.length]. now rewrite IH.
Qed.

Lemma slice_split (n : nat) :
  forall s : string, exists r : string, s = r ++ slice n s.
Proof.
  induction n as [|n IH]; intros s.
  - now exists "".
  - destruct s as [|c s]; [now exists ""|].
    destruct (IH s) as [r Hr]. exists (String c r).
    cbn [slice]. change (String c r ++ slice n s) with (String c (r ++ slice n s)).
    now rewrite <- Hr.
Qed.

(** A string ends with "Z" exactly when it is some string followed by "Z". *)
Lemma endsWith_Z_iff (s : string) :
  endsWith s "Z" = true <-> exists r : string, s = r ++ "Z".
Proof.
  unfold endsWith. split.
  - intros [_ Heq]%andb_true_iff. apply String.eqb_eq in Heq.
    destruct (slice_split (String.length s - String.length "Z") s) as [r Hr].
    exists r. now rewrite Heq in Hr.
  - intros [r ->]. rewrite length_append_char.
    change (String.length "Z") with 1%nat.
    replace (S (String.length r) - 1)%nat with (String.length r) by lia.
    rewrite slice_length_append. reflexivity.
Qed.

(** *** [toLowerCase] on the marker *)

Lemma lower_is_zero (a : ascii) :
  Ascii.eqb "0" (lower a) = Ascii.eqb "0" a.
Proof.
  destruct a as [[] [] [] [] [] [] [] []]; reflexivity.
Qed.

Lemma lower_is_x (a : ascii) :
  Ascii.eqb "x" (lower a) = Ascii.eqb "x" a || Ascii.eqb "X" a.
Proof.
  destruct a as [[] [] [] [] [] [] [] []]; reflexivity.
Qed.

(** A string begins with "0x" whatever the case exactly when it begins with
    "0x" or with "0X". *)
Lemma marker_any_case (s : string) :
  startsWith (toLowerCase s) "0x" = startsWith s "0x" || startsWith s "0X".
Proof.
  destruct s as [|a [|b r]]; cbn [toLowerCase startsWith].
  - reflexivity.
  - now rewrite !andb_false_r.
  - rewrite lower_is_zero, lower_is_x, !andb_true_r.
    destruct (Ascii.eqb "0" a); reflexivity.
Qed.

End JSFacts.

(* ===================================================================== *)
(** ** Properties of [src/utils.ts] *)
(* ===================================================================== *)

Module UtilsProps.
Import JS Utils JSFacts.

(** *** [formatAddress] and [parseBlockId] *)

Lemma formatAddress_absent :
  formatAddress Null = Undefined /\ formatAddress Undefined = Undefined.
Proof. split; reflexivity. Qed.

Lemma formatAddress_marker (r : string) :
  formatAddress (Defined (String "0" (String "x" r))) = Defined r.
Proof. reflexivity. Qed.

Lemma formatAddress_other (s : string) :
  s <> "" -> startsWith s "0x" = false -> formatAddress (Defined s) = Defined s.
Proof.
  intros Hne Hs. unfold formatAddress.
  rewrite (proj2 (truthy_string_true s) Hne), Hs. reflexivity.
Qed.

(** C7, counterexample: the empty string does not begin with the marker, yet
    [formatAddress] does not return it: the guard [!address] treats it as
    absent. *)
Lemma formatAddress_not_identity_on_empty :
  ~ (forall s : string,
       startsWith s "0x" = false -> formatAddress (Defined s) = Defined s).
Proof.
  intros H. specialize (H "" eq_refl). discriminate H.
Qed.

(** C7, amended: null, undefined and the empty string give undefined; a
    string that begins with "0x" gives the rest, and putting "0x" back in
    front of the result restores the string; a non-empty string that does
    not begin with "0x" is returned as it is, so a second application to it
    changes nothing. *)
Theorem formatAddress_strips_marker (s : string) :
  (formatAddress Null = Undefined /\
   formatAddress Undefined = Undefined /\
   formatAddress (Defined "") = Undefined) /\
  (startsWith s "0x" = true ->
   formatAddress (Defined s) = Defined (slice 2 s) /\
   "0x" ++ slice 2 s = s) /\
  (s <> "" -> startsWith s "0x" = false ->
   formatAddress (Defined s) = Defined s /\
   formatAddress (formatAddress (Defined s)) = formatAddress (Defined s)).
Proof.
  split; [repeat split|split].
  - intros [r ->]%startsWith_0x_inv.
    rewrite formatAddress_marker. split; reflexivity.
  - intros Hne Hs.
    rewrite (formatAddress_other s Hne Hs). split; [reflexivity|].
    apply (formatAddress_other s Hne Hs).
Qed.

Lemma formatAddress_strips_marker_witness :
  (formatAddress (Defined "0xdAC17F958D2ee523a2206206994597C13D831ec7")
     = Defined "dAC17F958D2ee523a2206206994597C13D831ec7" /\
   "0x" ++ "dAC17F958D2ee523a2206206994597C13D831ec7"
     = "0xdAC17F958D2ee523a2206206994597C13D831ec7") /\
  (formatAddress (Defined "dAC17F958D2ee523a2206206994597C13D831ec7")
     = Defined "dAC17F958D2ee523a2206206994597C13D831ec7" /\
   formatAddress (formatAddress (Defined "dAC17F958D2ee523a2206206994597C13D831ec7"))
     = formatAddress (Defined "dAC17F958D2ee523a2206206994597C13D831ec7")).
Proof.
  split.
  - apply (proj1 (proj2 (formatAddress_strips_marker
             "0xdAC17F958D2ee523a2206206994597C13D831ec7"))).
    reflexivity.
  - apply (proj2 (proj2 (formatAddress_strips_marker
             "dAC17F958D2ee523a2206206994597C13D831ec7"))).
    + discriminate.
    + reflexivity.
Defined.

Lemma parseBlockId_absent :
  parseBlockId Null = Undefined /\ parseBlockId Undefined = Undefined /\
  parseBlockId (Defined "") = Undefined.
Proof. repeat split; reflexivity. Qed.

(** Where the marker is a prefix the two functions agree. *)
Lemma parseBlockId_marker (s : string) :
  startsWith s "0x" = true ->
  parseBlockId (Defined s) = formatAddress (Defined s).
Proof.
  intros [r ->]%startsWith_0x_inv. reflexivity.
Qed.

(** C8: on a block identifier with "0x" inside, [parseBlockId] removes that
    occurrence ([String.replace] takes the first one wherever it is) while
    [formatAddress] leaves the string alone. *)
Theorem parseBlockId_removes_inner_marker :
  parseBlockId (Defined "a0xb") = Defined "ab" /\
  formatAddress (Defined "a0xb") = Defined "a0xb" /\
  parseBlockId (Defined "a0xb") <> formatAddress (Defined "a0xb").
Proof. repeat split; discriminate. Qed.

(** *** [parseLimit] *)

(** The clamp is an upper bound only: an integer result never exceeds
    [maxLimit]. *)
Lemma parseLimit_upper_bound (m v : Z) limit defaultLimit :
  parseLimit (Int m) limit defaultLimit = Int v -> v <= m.
Proof.
  unfold parseLimit.
  match goal with |- context [gt ?x _] => destruct x as [|z] end; simpl.
  - discriminate.
  - destruct (Z.ltb_spec m z); intros [= <-]; lia.
Qed.

Lemma parseLimit_no_input (m : Z) :
  1 <= m ->
  parseLimit (Int m) Undefined Undefined = Int 1 /\
  parseLimit (Int m) Null Undefined = Int 1 /\
  parseLimit (Int m) (Str "") Undefined = Int 1 /\
  parseLimit (Int m) (Num (Int 0)) Undefined = Int 1.
Proof.
  intros Hm. unfold parseLimit; simpl.
  destruct (Z.ltb_spec m 1); [lia|]. repeat split; reflexivity.
Qed.

Lemma parseLimit_default (m d : Z) :
  d <> 0 ->
  parseLimit (Int m) Undefined (Defined (Int d)) = Int (Z.min d m).
Proof.
  intros Hd. unfold parseLimit; simpl.
  destruct (Z.eqb_spec d 0); [contradiction|]. simpl.
  destruct (Z.ltb_spec m d); f_equal; lia.
Qed.

Lemma parseLimit_number_overrides (m z : Z) defaultLimit :
  z <> 0 ->
  parseLimit (Int m) (Num (Int z)) defaultLimit = Int (Z.min z m).
Proof.
  intros Hz. unfold parseLimit; simpl.
  destruct (Z.eqb_spec z 0); [contradiction|]. simpl.
  destruct (Z.ltb_spec m z); f_equal; lia.
Qed.

(** C3: a negative raw limit, and the string "0", come back unchanged: they
    are neither replaced by the default nor raised to 1. *)
Theorem parseLimit_below_one_survives :
  parseLimit (Int 1000) (Num (Int (-5))) (Defined (Int 10)) = Int (-5) /\
  parseLimit (Int 1000) (Str "-5") (Defined (Int 10)) = Int (-5) /\
  parseLimit (Int 1000) (Str "0") (Defined (Int 10)) = Int 0 /\
  parseLimit (Int 1000) Undefined (Defined (Int (-3))) = Int (-3).
Proof. repeat split; reflexivity. Qed.

(** C4: a raw limit that [parseInt] cannot read gives [NaN], which is not an
    integer and not [<= maxLimit]. *)
Theorem parseLimit_unreadable_string :
  parseLimit (Int 1000) (Str "abc") (Defined (Int 10)) = NaN /\
  le (parseLimit (Int 1000) (Str "abc") (Defined (Int 10))) (Int 1000) = false /\
  isInteger (parseLimit (Int 1000) (Str "abc") (Defined (Int 10))) = false.
Proof. repeat split; reflexivity. Qed.

(** *** [APIErrorResponse] *)

Lemma inc_lookup (labels other : string * Z) (c : gmap (string * Z) nat) :
  inc labels c !! other =
    if decide (labels = other) then Some (S (default O (c !! labels)))
    else c !! other.
Proof.
  unfold inc. destruct (decide (labels = other)) as [->|Hne].
  - apply lookup_insert_eq.
  - now apply lookup_insert_ne.
Qed.

(** C9: every call builds one record [{status, code, message}], with the
    message chosen by the kind of error: the string itself; for a Zod error
    the entries "[code] path: message", where the path is its segments
    joined by "/" (a key as it is, an index in decimal digits), joined by a
    line feed; the message of an [Error]; the fixed
    text otherwise.  The record is appended once to the log, the counter
    labelled with the request path and the status goes up by one and no
    other counter moves, and the response carries that record and status. *)
Theorem APIErrorResponse_formats_logs_counts
    (ctx : Context) (status : Z) (code : string) (err : thrown) (w : world) :
  let message :=
    match err with
    | ErrString s => s
    | ErrZod issues =>
        join (String "010" "")
          (map (fun issue =>
                  "[" ++ issue_code issue ++ "] "
                      ++ join "/"
                           (map (fun p => match p with
                                          | Key k => k
                                          | Index i => digits (Z.of_N i)
                                          end)
                                (issue_path issue))
                      ++ ": " ++ issue_message issue)
               issues)
    | ErrError msg => msg
    | ErrOther => "An unexpected error occured"
    end in
  let api_error := {| status := status; code := code; message := message |} in
  let response := fst (APIErrorResponse ctx status code err w) in
  let w' := snd (APIErrorResponse ctx status code err w) in
  response = {| body := api_error; http_status := status |} /\
  logged w' = (logged w ++ [api_error])%list /\
  request_error w' !! (req_path ctx, status)
    = Some (S (default O (request_error w !! (req_path ctx, status)))) /\
  (forall labels : string * Z,
      labels <> (req_path ctx, status) ->
      request_error w' !! labels = request_error w !! labels).
Proof.
  cbn zeta.
  assert (Hmsg : error_message err =
    match err with
    | ErrString s => s
    | ErrZod issues =>
        join (String "010" "")
          (map (fun issue =>
                  "[" ++ issue_code issue ++ "] "
                      ++ join "/"
                           (map (fun p => match p with
                                          | Key k => k
                                          | Index i => digits (Z.of_N i)
                                          end)
                                (issue_path issue))
                      ++ ": " ++ issue_message issue)
               issues)
    | ErrError msg => msg
    | ErrOther => "An unexpected error occured"
    end) by (destruct err; reflexivity).
  rewrite <- Hmsg. unfold APIErrorResponse; cbn [fst snd logged request_error].
  split; [reflexivity|]. split; [reflexivity|]. split.
  - rewrite inc_lookup. destruct (decide _); [reflexivity|contradiction].
  - intros labels Hne. rewrite inc_lookup.
    destruct (decide _) as [Heq|]; [|reflexivity]. congruence.
Qed.

Lemma APIErrorResponse_formats_logs_counts_witness :
  fst (APIErrorResponse Sample.not_found 400 "bad_query_input"
         (ErrZod [ {| issue_code := "invalid_type";
                      issue_path := [Key "block_range"; Index 10];
                      issue_message := "Expected number" |};
                   {| issue_code := "too_small";
                      issue_path := [Key "limit"];
                      issue_message := "Too small" |} ])
         Sample.idle)
    = {| body := {| status := 400; code := "bad_query_input";
                    message :=
                      "[invalid_type] block_range/10: Expected number"
                        ++ String "010" ""
                        ++ "[too_small] limit: Too small" |};
         http_status := 400 |} /\
  fst (APIErrorResponse Sample.not_found 404 "route_not_found"
         (ErrString "Path not found: GET /nope") Sample.idle)
    = {| body := {| status := 404; code := "route_not_found";
                    message := "Path not found: GET /nope" |};
         http_status := 404 |} /\
  logged (snd (APIErrorResponse Sample.not_found 404 "route_not_found"
                 (ErrString "Path not found: GET /nope") Sample.idle))
    = [ {| status := 404; code := "route_not_found";
           message := "Path not found: GET /nope" |} ] /\
  request_error
    (snd (APIErrorResponse Sample.not_found 404 "route_not_found"
            (ErrString "Path not found: GET /nope") Sample.idle))
    !! ("/nope", 404)
    = Some 1%nat /\
  request_error
    (snd (APIErrorResponse Sample.not_found 404 "route_not_found"
            (ErrString "Path not found: GET /nope") Sample.idle))
    !! ("/nope", 500)
    = request_error Sample.idle !! ("/nope", 500).
Proof.
  pose proof (APIErrorResponse_formats_logs_counts Sample.not_found 400
                "bad_query_input"
                (ErrZod [ {| issue_code := "invalid_type";
                             issue_path := [Key "block_range"; Index 10];
                             issue_message := "Expected number" |};
                          {| issue_code := "too_small";
                             issue_path := [Key "limit"];
                             issue_message := "Too small" |} ])
                Sample.idle) as (Hzod & _).
  pose proof (APIErrorResponse_formats_logs_counts Sample.not_found 404
                "route_not_found" (ErrString "Path not found: GET /nope")
                Sample.idle) as (Hresponse & Hlog & Hcount & Hothers).
  split; [|split; [|split; [|split]]].
  - exact Hzod.
  - exact Hresponse.
  - exact Hlog.
  - exact Hcount.
  - apply (Hothers ("/nope", 500)). discriminate.
Defined.

Example APIErrorResponse_zod_message :
  error_message
    (ErrZod [ {| issue_code := "invalid_type";
                 issue_path := [Key "block_range"; Index 1];
                 issue_message := "Expected number" |};
              {| issue_code := "too_small";
                 issue_path := [Key "limit"];
                 issue_message := "Too small" |} ])
  = "[invalid_type] block_range/1: Expected number" ++ String "010" ""
      ++ "[too_small] limit: Too small".
Proof. reflexivity. Qed.

(** *** [parseTimestamp] *)

Section ParseTimestampProps.
Variable Date_parse : string -> number.

Lemma toString_nonneg (z : Z) : 0 <= z -> toString (Int z) = digits z.
Proof.
  intros Hz. unfold toString. destruct (Z.ltb_spec z 0); [lia|reflexivity].
Qed.

Lemma parseTimestamp_number_by_length (n : number) :
  parseTimestamp Date_parse (Num n) =
    if (String.length (toString n) =? 10)%nat then Return (Defined n)
    else if (String.length (toString n) =? 13)%nat
         then Return (Defined (floor_div n 1000))
         else Throw "Invalid timestamp".
Proof. reflexivity. Qed.

Lemma length_ten (z : Z) :
  0 <= z ->
  String.length (toString (Int z)) = 10%nat <-> 10 ^ 9 <= z < 10 ^ 10.
Proof.
  intros Hz. rewrite (toString_nonneg z Hz).
  apply (digits_length_iff z 9 Hz). lia.
Qed.

Lemma length_thirteen (z : Z) :
  0 <= z ->
  String.length (toString (Int z)) = 13%nat <-> 10 ^ 12 <= z < 10 ^ 13.
Proof.
  intros Hz. rewrite (toString_nonneg z Hz).
  apply (digits_length_iff z 12 Hz). lia.
Qed.

(** C5, amended: a non-negative integer of exactly 10 decimal digits, that
    is one in [10^9, 10^10), is returned as it is; one of exactly 13 digits,
    in [10^12, 10^13), gives the floor of its quotient by 1000; every other
    non-negative safe integer throws "Invalid timestamp"; a string of
    digits that denotes a safe integer is handled as that number; undefined
    and null give undefined. *)
Theorem parseTimestamp_numeric :
  (forall z : Z,
      (10 ^ 9 <= z < 10 ^ 10 ->
       parseTimestamp Date_parse (Num (Int z)) = Return (Defined (Int z))) /\
      (10 ^ 12 <= z < 10 ^ 13 ->
       parseTimestamp Date_parse (Num (Int z))
         = Return (Defined (Int (z / 1000)))) /\
      (0 <= z <= 2 ^ 53 ->
       ~ 10 ^ 9 <= z < 10 ^ 10 -> ~ 10 ^ 12 <= z < 10 ^ 13 ->
       parseTimestamp Date_parse (Num (Int z)) = Throw "Invalid timestamp")) /\
  (forall s : string,
      test_digits s = true -> Decimal.value s <= 2 ^ 53 ->
      parseTimestamp Date_parse (Str s)
        = parseTimestamp Date_parse (Num (Int (Decimal.value s)))) /\
  parseTimestamp Date_parse Undefined = Return Undefined /\
  parseTimestamp Date_parse Null = Return Undefined.
Proof.
  split; [|split; [|split; reflexivity]].
  - intros z. rewrite parseTimestamp_number_by_length. repeat split.
    + intros Hz. apply length_ten in Hz; [|lia]. now rewrite Hz.
    + intros Hz.
      assert (H10 : String.length (toString (Int z)) <> 10%nat).
      { intros H. apply length_ten in H; lia. }
      apply length_thirteen in Hz; [|lia].
      destruct (Nat.eqb_spec (String.length (toString (Int z))) 10);
        [contradiction|].
      now rewrite Hz.
    + intros [Hz _] N10 N13.
      destruct (Nat.eqb_spec (String.length (toString (Int z))) 10) as [H|_].
      { apply length_ten in H; [contradiction|assumption]. }
      destruct (Nat.eqb_spec (String.length (toString (Int z))) 13) as [H|_].
      { apply length_thirteen in H; [contradiction|assumption]. }
      reflexivity.
  - intros s Hs _. unfold parseTimestamp, Str, Num.
    rewrite Hs, (parseInt_digits s Hs). reflexivity.
Qed.

(** C6: a string that is not all digits gets "Z" appended unless it ends with
    one, is parsed as a date, and the result is the floor of the
    milliseconds divided by 1000: the whole second that contains the
    instant, whatever the fraction. *)
Theorem parseTimestamp_date_string (s : string) :
  test_digits s = false ->
  parseTimestamp Date_parse (Str s)
    = Return (Defined
        (floor_div (Date_parse (if endsWith s "Z" then s else s ++ "Z")) 1000)) /\
  (forall ms : Z,
      Date_parse (if endsWith s "Z" then s else s ++ "Z") = Int ms ->
      exists secs : Z,
        parseTimestamp Date_parse (Str s) = Return (Defined (Int secs)) /\
        1000 * secs <= ms < 1000 * secs + 1000).
Proof.
  intros Hs.
  assert (Heq : parseTimestamp Date_parse (Str s)
    = Return (Defined
        (floor_div (Date_parse (if endsWith s "Z" then s else s ++ "Z")) 1000))).
  { unfold parseTimestamp, Str. rewrite Hs. unfold with_utc_marker.
    destruct (endsWith s "Z"); reflexivity. }
  split; [exact Heq|].
  intros ms Hms. exists (ms / 1000). rewrite Heq, Hms. split; [reflexivity|].
  pose proof (Z.div_mod ms 1000 ltac:(lia)).
  pose proof (Z.mod_pos_bound ms 1000 ltac:(lia)). lia.
Qed.

(** C10: for a string that is not all digits, take the string itself when it
    is some string followed by "Z", and the string followed by "Z"
    otherwise: when that is an invalid date the function returns [NaN]; it
    neither throws nor returns undefined. *)
Theorem parseTimestamp_invalid_date (s : string) :
  test_digits s = false ->
  ((exists r : string, s = r ++ "Z") /\ Date_parse s = NaN) \/
  ((forall r : string, s <> r ++ "Z") /\ Date_parse (s ++ "Z") = NaN) ->
  parseTimestamp Date_parse (Str s) = Return (Defined NaN) /\
  (forall msg : string, parseTimestamp Date_parse (Str s) <> Throw msg) /\
  parseTimestamp Date_parse (Str s) <> Return Undefined.
Proof.
  intros Hs Hnan.
  assert (Heq : parseTimestamp Date_parse (Str s) = Return (Defined NaN)).
  { unfold parseTimestamp, Str, with_utc_marker. rewrite Hs.
    destruct Hnan as [[Hz Hd]|[Hz Hd]].
    - rewrite (proj2 (endsWith_Z_iff s) Hz). cbn [negb]. now rewrite Hd.
    - destruct (endsWith s "Z") eqn:He.
      + apply endsWith_Z_iff in He as [r Hr]. now destruct (Hz r).
      + cbn [negb]. now rewrite Hd. }
  rewrite Heq. repeat split; intros; discriminate.
Qed.

End ParseTimestampProps.

(** C5, counterexample: counting digits, the number -123456789 has nine of
    them, yet it is returned and not refused: what the function measures is
    the length of the rendering, sign included. *)
Lemma parseTimestamp_negative_nine_digits :
  ~ (forall z : Z,
        ~ 10 ^ 9 <= Z.abs z < 10 ^ 10 -> ~ 10 ^ 12 <= Z.abs z < 10 ^ 13 ->
        parseTimestamp IsoDate.Date_parse (Num (Int z)) = Throw "Invalid timestamp").
Proof.
  intros H. specialize (H (-123456789)).
  assert (H1 : ~ 10 ^ 9 <= Z.abs (-123456789) < 10 ^ 10) by (cbn; lia).
  assert (H2 : ~ 10 ^ 12 <= Z.abs (-123456789) < 10 ^ 13) by (cbn; lia).
  specialize (H H1 H2). discriminate H.
Qed.

Lemma parseTimestamp_numeric_witness :
  parseTimestamp IsoDate.Date_parse (Num (Int 1529002377))
    = Return (Defined (Int 1529002377)) /\
  parseTimestamp IsoDate.Date_parse (Num (Int 1529002377999))
    = Return (Defined (Int 1529002377)) /\
  parseTimestamp IsoDate.Date_parse (Num (Int 15290023779))
    = Throw "Invalid timestamp" /\
  parseTimestamp IsoDate.Date_parse (Str "1529002377999")
    = parseTimestamp IsoDate.Date_parse (Num (Int 1529002377999)).
Proof.
  destruct (parseTimestamp_numeric IsoDate.Date_parse)
    as (Hint & Hstr & _).
  split; [|split; [|split]].
  - apply (proj1 (Hint 1529002377)). lia.
  - apply (proj1 (proj2 (Hint 1529002377999))). lia.
  - apply (proj2 (proj2 (Hint 15290023779))); lia.
  - apply (Hstr "1529002377999" eq_refl).
    change (1529002377999 <= 2 ^ 53). lia.
Defined.

Lemma parseTimestamp_date_string_witness :
  parseTimestamp IsoDate.Date_parse (Str "1970-01-01T00:00:01.999")
    = Return (Defined (Int 1)) /\
  parseTimestamp IsoDate.Date_parse (Str "1969-12-31T23:59:58.500Z")
    = Return (Defined (Int (-2))).
Proof.
  split.
  - apply (proj1 (parseTimestamp_date_string IsoDate.Date_parse
                    "1970-01-01T00:00:01.999" eq_refl)).
  - apply (proj1 (parseTimestamp_date_string IsoDate.Date_parse
                    "1969-12-31T23:59:58.500Z" eq_refl)).
Defined.

Lemma parseTimestamp_invalid_date_witness :
  parseTimestamp IsoDate.Date_parse (Str "2024-01-01T00:00:00+02:00")
    = Return (Defined NaN) /\
  parseTimestamp IsoDate.Date_parse (Str "not-a-dateZ") = Return (Defined NaN).
Proof.
  split.
  - assert (Hno : forall r : string, "2024-01-01T00:00:00+02:00" <> r ++ "Z").
    { intros r Hr.
      assert (He : endsWith "2024-01-01T00:00:00+02:00" "Z" = true)
        by (apply endsWith_Z_iff; now exists r).
      discriminate He. }
    apply (proj1 (parseTimestamp_invalid_date IsoDate.Date_parse
                    "2024-01-01T00:00:00+02:00" eq_refl
                    (or_intror (conj Hno eq_refl)))).
  - apply (proj1 (parseTimestamp_invalid_date IsoDate.Date_parse
                    "not-a-dateZ" eq_refl
                    (or_introl (conj (ex_intro _ "not-a-date" eq_refl)
                                     eq_refl)))).
Defined.

(** The date of the first string is valid as it stands; it is the appended
    "Z" that makes it invalid. *)
Example offset_date_alone :
  IsoDate.Date_parse "2024-01-01T00:00:00+02:00" = Int 1704060000000 /\
  IsoDate.Date_parse "2024-01-01T00:00:00+02:00Z" = NaN.
Proof. split; reflexivity. Qed.

End UtilsProps.


(* ===================================================================== *)
(** ** Properties of the usage-endpoint handler *)
(* ===================================================================== *)

Module IndexProps.
Import JS Utils Index JSFacts.

#[local] Arguments startsWith : simpl never.
#[local] Arguments slice : simpl never.
#[local] Arguments toLowerCase : simpl never.

(** *** The query schema: [preprocess], validation, [transform] *)

Lemma preprocess_other_field (q : gmap string string) (k : string) :
  k <> "block_range" -> preprocess q !! k = VStr <$> q !! k.
Proof.
  intros Hk. unfold preprocess, raw_object.
  destruct (q !! "block_range") as [r|]; [destruct (truthy_string r)|];
    rewrite ?lookup_insert_ne by congruence; apply lookup_fmap.
Qed.

Lemma preprocess_block_range (q : gmap string string) (r : string) :
  q !! "block_range" = Some r -> r <> "" ->
  preprocess q !! "block_range" = Some (VArr (VStr <$> split "," r)).
Proof.
  intros Hq Hr. unfold preprocess. rewrite Hq.
  rewrite (proj2 (truthy_string_true r) Hr). apply lookup_insert_eq.
Qed.

Lemma strip_prop_lookup (q : gmap string jsval) (prop k : string) :
  strip_prop q prop !! k =
    if decide (k = prop) then strip_value <$> q !! k else q !! k.
Proof.
  unfold strip_prop. destruct (decide (k = prop)) as [->|Hne].
  - destruct (q !! prop) as [v|] eqn:Hv; [|now rewrite Hv].
    destruct v; simpl; try (now rewrite Hv).
    destruct (truthy_string s && startsWith (toLowerCase s) "0x").
    + apply lookup_insert_eq.
    + now rewrite Hv.
  - destruct (q !! prop) as [v|]; [|reflexivity].
    destruct v; try reflexivity.
    destruct (truthy_string s && startsWith (toLowerCase s) "0x");
      [now apply lookup_insert_ne|reflexivity].
Qed.

(** The loop visits each of the four names once. *)
Lemma transform_lookup_address (data : gmap string jsval) (prop : string) :
  In prop addresses -> transform data !! prop = strip_value <$> data !! prop.
Proof.
  unfold transform, addresses. cbn [fold_left In].
  intros [<-|[<-|[<-|[<-|[]]]]];
    repeat (rewrite strip_prop_lookup;
            match goal with
            | |- context [decide (?a = ?b)] =>
                destruct (decide (a = b)); try discriminate; try congruence
            end);
    reflexivity.
Qed.

Lemma transform_lookup_other (data : gmap string jsval) (k : string) :
  ~ In k addresses -> transform data !! k = data !! k.
Proof.
  unfold transform, addresses. cbn [fold_left In]. intros Hk.
  repeat (rewrite strip_prop_lookup;
          match goal with
          | |- context [decide (?a = ?b)] =>
              destruct (decide (a = b)); [exfalso; apply Hk; subst; tauto|]
          end).
  reflexivity.
Qed.

Lemma lower_marker_nonempty (s : string) :
  startsWith (toLowerCase s) "0x" = true -> truthy_string s = true.
Proof. destruct s; [discriminate|reflexivity]. Qed.

(** C2, counterexample: a request with [block_range=] carries the empty
    string, which the guard [if (q.block_range)] does not split. *)
Lemma preprocess_keeps_empty_block_range :
  ~ (forall (q : gmap string string) (r : string),
        q !! "block_range" = Some r ->
        preprocess q !! "block_range" = Some (VArr (VStr <$> split "," r))).
Proof.
  intros H.
  specialize (H {["block_range" := ""]} "" (lookup_singleton_eq _ _)).
  unfold preprocess in H. rewrite lookup_singleton_eq in H. simpl in H.
  unfold raw_object in H. rewrite lookup_fmap, lookup_singleton_eq in H.
  discriminate H.
Qed.

(** C2, amended: a non-empty [block_range] string is split at the commas in
    the object the schema validates, and an empty one reaches the schema as
    the empty string; each of [contract], [account], [from], [to] reaches
    the schema as the string it was, prefix included; when the schema
    rejects the object its issues are the result and nothing is stripped;
    when it accepts, each of the four fields that is a string beginning
    with "0x" or with "0X" loses those two characters in the result, and
    any other string in them stays as it is. *)
Theorem query_schema_splits_then_strips
    (inner : schema) (q : gmap string string) :
  (forall r : string,
      q !! "block_range" = Some r -> r <> "" ->
      preprocess q !! "block_range" = Some (VArr (VStr <$> split "," r))) /\
  (q !! "block_range" = Some "" ->
   preprocess q !! "block_range" = Some (VStr "")) /\
  (forall k : string,
      In k ["contract"; "account"; "from"; "to"] ->
      preprocess q !! k = VStr <$> q !! k) /\
  (forall issues : list ZodIssue,
      inner (preprocess q) = Failure issues ->
      query_params_schema inner q = Failure issues) /\
  (forall data : gmap string jsval,
      inner (preprocess q) = Success data ->
      query_params_schema inner q = Success (transform data) /\
      (forall (prop r : string),
          In prop ["contract"; "account"; "from"; "to"] ->
          data !! prop = Some (VStr (String "0" (String "x" r))) \/
          data !! prop = Some (VStr (String "0" (String "X" r))) ->
          transform data !! prop = Some (VStr r)) /\
      (forall (prop s : string),
          In prop ["contract"; "account"; "from"; "to"] ->
          data !! prop = Some (VStr s) ->
          startsWith s "0x" = false -> startsWith s "0X" = false ->
          transform data !! prop = Some (VStr s))).
Proof.
  split; [|split; [|split; [|split]]].
  - intros r. apply preprocess_block_range.
  - intros Hq. unfold preprocess, raw_object. rewrite Hq. cbn [truthy_string].
    now rewrite lookup_fmap, Hq.
  - intros k Hk. apply preprocess_other_field.
    cbn [In] in Hk.
    destruct Hk as [<-|[<-|[<-|[<-|[]]]]]; discriminate.
  - intros issues Hi. unfold query_params_schema. now rewrite Hi.
  - intros data Hd. split; [|split].
    + unfold query_params_schema. now rewrite Hd.
    + intros prop r Hprop [Hs|Hs];
        rewrite (transform_lookup_address data prop Hprop), Hs; reflexivity.
    + intros prop s Hprop Hs Hx HX.
      rewrite (transform_lookup_address data prop Hprop), Hs.
      cbn [fmap option_fmap option_map strip_value].
      now rewrite marker_any_case, Hx, HX, andb_false_r.
Qed.

Lemma query_schema_splits_then_strips_witness :
  preprocess {["block_range" := "100,200"]} !! "block_range"
    = Some (VArr [VStr "100"; VStr "200"]) /\
  preprocess {["block_range" := ""]} !! "block_range" = Some (VStr "") /\
  preprocess {["account" := "0Xzz"]} !! "account" = Some (VStr "0Xzz") /\
  query_params_schema Sample.query_schema {["contract" := "abc"]}
    = Failure [Sample.invalid_address "contract"] /\
  transform {["contract" := VStr "0xABCDEF"]} !! "contract"
    = Some (VStr "ABCDEF") /\
  transform {["to" := VStr "0XABCDEF"]} !! "to" = Some (VStr "ABCDEF") /\
  transform {["from" := VStr "x0ABCDEF"]} !! "from" = Some (VStr "x0ABCDEF").
Proof.
  assert (Hok : Sample.query_schema (preprocess {["contract" := "0xABCDEF"]})
                   = Success {["contract" := VStr "0xABCDEF"]})
    by (vm_compute; reflexivity).
  assert (Hto : z_unknown (preprocess {["to" := "0XABCDEF"]})
                   = Success {["to" := VStr "0XABCDEF"]})
    by (vm_compute; reflexivity).
  assert (Hfrom : z_unknown (preprocess {["from" := "x0ABCDEF"]})
                   = Success {["from" := VStr "x0ABCDEF"]})
    by (vm_compute; reflexivity).
  split; [|split; [|split; [|split; [|split; [|split]]]]].
  - apply (proj1 (query_schema_splits_then_strips
                    Sample.query_schema {["block_range" := "100,200"]})
                 "100,200").
    + apply lookup_singleton_eq.
    + discriminate.
  - apply (proj1 (proj2 (query_schema_splits_then_strips
                    Sample.query_schema {["block_range" := ""]}))).
    apply lookup_singleton_eq.
  - rewrite (proj1 (proj2 (proj2 (query_schema_splits_then_strips
                    Sample.query_schema {["account" := "0Xzz"]})))
                   "account").
    + now rewrite lookup_singleton_eq.
    + right. left. reflexivity.
  - apply (proj1 (proj2 (proj2 (proj2 (query_schema_splits_then_strips
                    Sample.query_schema {["contract" := "abc"]}))))).
    vm_compute. reflexivity.
  - apply (proj1 (proj2 (proj2 (proj2 (proj2 (proj2
             (query_schema_splits_then_strips
                Sample.query_schema {["contract" := "0xABCDEF"]}))))
             {["contract" := VStr "0xABCDEF"]} Hok))
           "contract" "ABCDEF").
    + left. reflexivity.
    + left. apply lookup_singleton_eq.
  - apply (proj1 (proj2 (proj2 (proj2 (proj2 (proj2
             (query_schema_splits_then_strips
                z_unknown {["to" := "0XABCDEF"]}))))
             {["to" := VStr "0XABCDEF"]} Hto))
           "to" "ABCDEF").
    + right. right. right. left. reflexivity.
    + right. apply lookup_singleton_eq.
  - apply (proj2 (proj2 (proj2 (proj2 (proj2 (proj2
             (query_schema_splits_then_strips
                z_unknown {["from" := "x0ABCDEF"]}))))
             {["from" := VStr "x0ABCDEF"]} Hfrom))
           "from" "x0ABCDEF").
    + right. right. left. reflexivity.
    + apply lookup_singleton_eq.
    + reflexivity.
    + reflexivity.
Defined.

(** *** The handler *)

Lemma merged_issues_app (path_params query_params : SafeParseResult) :
  merged_issues path_params query_params
    = (default [] (error_issues path_params)
         ++ default [] (error_issues query_params))%list.
Proof. reflexivity. Qed.

(** With both sources valid the handler hands over and touches nothing. *)
Lemma handler_dispatches (paths : string -> parameters)
    (endpoint : string) (ctx : Context) (w : world)
    (path_data query_data : gmap string jsval) :
  path_params_of paths endpoint ctx = Success path_data ->
  query_params_of paths endpoint ctx = Success query_data ->
  handler paths endpoint ctx w
    = (MakeUsageQuery endpoint (query_data ∪ path_data), w).
Proof. intros Hp Hq. unfold handler. now rewrite Hp, Hq. Qed.

(** C1: when the path parameters, the query parameters or both are rejected,
    both results are still computed and the handler answers itself, never
    handing over to [makeUsageQuery]: one response of status 400 and code
    [bad_query_input], whose message renders the path issues followed by the
    query issues, logged once and counted once.  In particular when both
    are rejected the issues of both are there. *)
Theorem handler_merges_validation_errors (paths : string -> parameters)
    (endpoint : string) (ctx : Context) (w : world) :
  let path_params := path_params_of paths endpoint ctx in
  let query_params := query_params_of paths endpoint ctx in
  error_issues path_params <> None \/ error_issues query_params <> None ->
  let issues :=
    (default [] (error_issues path_params)
       ++ default [] (error_issues query_params))%list in
  let api_error :=
    {| status := 400; code := "bad_query_input";
       message := error_message (ErrZod issues) |} in
  handler paths endpoint ctx w
    = (Respond {| body := api_error; http_status := 400 |},
       {| logged := logged w ++ [api_error];
          request_error := inc (req_path ctx, 400) (request_error w) |}) /\
  (forall (e : string) (params : gmap string jsval) (w' : world),
      handler paths endpoint ctx w <> (MakeUsageQuery e params, w')) /\
  (forall path_issues query_issues : list ZodIssue,
      path_params = Failure path_issues ->
      query_params = Failure query_issues ->
      issues = (path_issues ++ query_issues)%list).
Proof.
  intros path_params query_params Hfail issues api_error.
  assert (Heq : handler paths endpoint ctx w
    = (Respond {| body := api_error; http_status := 400 |},
       {| logged := logged w ++ [api_error];
          request_error := inc (req_path ctx, 400) (request_error w) |})).
  { unfold handler. fold path_params query_params.
    subst api_error issues.
    destruct path_params as [pd|pi] eqn:Hp, query_params as [qd|qi] eqn:Hq;
      cbn [error_issues] in Hfail |- *.
    - destruct Hfail as [H|H]; contradiction.
    - reflexivity.
    - reflexivity.
    - reflexivity. }
  split; [exact Heq|]. split.
  - intros e params w'. rewrite Heq. intros [=].
  - intros pi qi Hp Hq. subst issues. now rewrite Hp, Hq.
Qed.

Lemma handler_merges_validation_errors_witness :
  handler Sample.paths Sample.endpoint
          (Sample.request ∅ {["contract" := "abc"]}) Sample.idle
  = (Respond
       {| body :=
            {| status := 400; code := "bad_query_input";
               message := "[invalid_type] address: Required" ++ String "010" ""
                            ++ "[invalid_string] contract: Invalid" |};
          http_status := 400 |},
     {| logged :=
          [ {| status := 400; code := "bad_query_input";
               message := "[invalid_type] address: Required" ++ String "010" ""
                            ++ "[invalid_string] contract: Invalid" |} ];
        request_error := {[ ("/balances/x", 400) := 1%nat ]} |}).
Proof.
  assert (Hfail :
    error_issues (path_params_of Sample.paths Sample.endpoint
                    (Sample.request ∅ {["contract" := "abc"]})) <> None
    \/ error_issues (query_params_of Sample.paths Sample.endpoint
                    (Sample.request ∅ {["contract" := "abc"]})) <> None).
  { left. vm_compute. discriminate. }
  rewrite (proj1 (handler_merges_validation_errors Sample.paths Sample.endpoint
                    (Sample.request ∅ {["contract" := "abc"]}) Sample.idle
                    Hfail)).
  vm_compute. reflexivity.
Defined.

End IndexProps.


(* ===================================================================== *)
(** ** Further properties of the built-ins: round trips *)
(* ===================================================================== *)

Module RoundTrips.
Import JS JSFacts Routes.

Lemma append_cons (c : ascii) (r t : string) :
  String c r ++ t = String c (r ++ t).
Proof. reflexivity. Qed.

Lemma append_empty_l (t : string) : "" ++ t = t.
Proof. reflexivity. Qed.

Lemma append_empty_r (s : string) : s ++ "" = s.
Proof.
  induction s as [|c r IH]; [reflexivity|].
  now rewrite append_cons, IH.
Qed.

Lemma append_assoc (a b c : string) : (a ++ b) ++ c = a ++ (b ++ c).
Proof.
  induction a as [|x r IH]; [reflexivity|].
  now rewrite !append_cons, IH.
Qed.

Lemma append_length (a b : string) :
  String.length (a ++ b) = (String.length a + String.length b)%nat.
Proof.
  induction a as [|x r IH]; [reflexivity|].
  rewrite append_cons. cbn [String.length]. now rewrite IH.
Qed.

(** *** [split] and [join] *)

Lemma split_go_cons (sep : ascii) (s cur : string) :
  exists first rest, split_go sep s cur = first :: rest.
Proof.
  revert cur. induction s as [|c r IH]; intros cur; simpl.
  - now exists cur, [].
  - destruct (Ascii.eqb c sep); [now eexists _, _|apply IH].
Qed.

Lemma join_cons (sep x : string) (xs : list string) :
  xs <> [] -> join sep (x :: xs) = x ++ sep ++ join sep xs.
Proof. destruct xs; [congruence|reflexivity]. Qed.

Lemma join_split_go (sep : ascii) (s : string) :
  forall cur : string,
    join (String sep "") (split_go sep s cur) = cur ++ s.
Proof.
  induction s as [|c r IH]; intros cur; cbn [split_go].
  - cbn [join]. now rewrite append_empty_r.
  - destruct (Ascii.eqb_spec c sep) as [->|Hne].
    + destruct (split_go_cons sep r "") as (first & rest & Hsplit).
      rewrite join_cons by (rewrite Hsplit; discriminate).
      rewrite IH. reflexivity.
    + rewrite IH, append_assoc. reflexivity.
Qed.

(** Joining the pieces with the separator gives the string back. *)
Lemma join_split (sep : ascii) (s : string) :
  join (String sep "") (split sep s) = s.
Proof. apply (join_split_go sep s ""). Qed.

Lemma hasChar_append (c : ascii) (a b : string) :
  hasChar c (a ++ b) = hasChar c a || hasChar c b.
Proof.
  induction a as [|x r IH]; [reflexivity|].
  rewrite append_cons. cbn [hasChar]. now rewrite IH, orb_assoc.
Qed.

Lemma split_go_pieces (sep : ascii) (s : string) :
  forall cur : string,
    hasChar sep cur = false ->
    Forall (fun piece => hasChar sep piece = false) (split_go sep s cur).
Proof.
  induction s as [|c r IH]; intros cur Hcur; cbn [split_go].
  - now constructor.
  - destruct (Ascii.eqb c sep) eqn:Hc.
    + constructor; [assumption|]. now apply IH.
    + apply IH. rewrite hasChar_append, Hcur. cbn [hasChar].
      now rewrite Hc.
Qed.

(** No piece holds the separator. *)
Lemma split_pieces (sep : ascii) (s : string) :
  Forall (fun piece => hasChar sep piece = false) (split sep s).
Proof. now apply split_go_pieces. Qed.

(** *** [toString] and [parseInt] *)

Lemma digitChar_code (d : Z) :
  0 <= d < 10 -> nat_of_ascii (digitChar d) = (48 + Z.to_nat d)%nat.
Proof.
  intros Hd. unfold digitChar. apply nat_ascii_embedding. lia.
Qed.

Lemma digitChar_isDigit (d : Z) : 0 <= d < 10 -> isDigit (digitChar d) = true.
Proof.
  intros Hd. apply isDigit_range. rewrite (digitChar_code d Hd). lia.
Qed.

Lemma digits_go_acc (fuel : nat) :
  forall (n : Z) (acc : string),
    digits_go fuel n acc = digits_go fuel n "" ++ acc.
Proof.
  induction fuel as [|f IH]; intros n acc; cbn [digits_go].
  - reflexivity.
  - destruct (n <? 10); [reflexivity|].
    rewrite (IH (n / 10) (String _ acc)), (IH (n / 10) (String _ "")).
    now rewrite append_assoc.
Qed.

Lemma allDigits_append (a b : string) :
  allDigits (a ++ b) = allDigits a && allDigits b.
Proof.
  induction a as [|x r IH]; [reflexivity|].
  rewrite append_cons. cbn [allDigits]. now rewrite IH, andb_assoc.
Qed.

Lemma digits_go_allDigits (fuel : nat) :
  forall n : Z, 0 <= n -> allDigits (digits_go fuel n "") = true.
Proof.
  induction fuel as [|f IH]; intros n Hn; cbn [digits_go].
  - cbn [allDigits]. rewrite digitChar_isDigit; [reflexivity|].
    apply Z.mod_pos_bound; lia.
  - assert (Hd : isDigit (digitChar (n mod 10)) = true)
      by (apply digitChar_isDigit, Z.mod_pos_bound; lia).
    destruct (n <? 10).
    + cbn [allDigits]. now rewrite Hd.
    + rewrite digits_go_acc, allDigits_append.
      rewrite IH by (apply Z.div_pos; lia).
      cbn [allDigits]. now rewrite Hd.
Qed.

Lemma digits_go_cons (fuel : nat) (n : Z) :
  exists c r, digits_go fuel n "" = String c r.
Proof.
  revert n. induction fuel as [|f IH]; intros n; cbn [digits_go].
  - now eexists _, _.
  - destruct (n <? 10); [now eexists _, _|].
    rewrite digits_go_acc.
    destruct (IH (n / 10)) as (c & r & ->). now eexists _, _.
Qed.

Lemma test_digits_digits (n : Z) : 0 <= n -> test_digits (digits n) = true.
Proof.
  intros Hn. unfold test_digits, digits.
  rewrite (digits_go_allDigits _ n Hn).
  destruct (digits_go_cons (Z.to_nat (Z.log2 n)) n) as (c & r & ->).
  reflexivity.
Qed.

Lemma value_go_append (a b : string) :
  forall acc : Z,
    Decimal.value_go (a ++ b) acc = Decimal.value_go b (Decimal.value_go a acc).
Proof.
  induction a as [|x r IH]; intros acc; [reflexivity|].
  rewrite append_cons. cbn [Decimal.value_go]. apply IH.
Qed.

Lemma value_digits_go (fuel : nat) :
  forall n : Z,
    0 <= n < 10 ^ Z.of_nat (S fuel) ->
    Decimal.value_go (digits_go fuel n "") 0 = n.
Proof.
  induction fuel as [|f IH]; intros n Hn; cbn [digits_go].
  - change (10 ^ Z.of_nat 1) with 10 in Hn.
    cbn [Decimal.value_go]. rewrite digitChar_code by (apply Z.mod_pos_bound; lia).
    rewrite Z.mod_small by lia. lia.
  - destruct (Z.ltb_spec n 10) as [Hlt|Hge].
    + cbn [Decimal.value_go].
      rewrite digitChar_code by (apply Z.mod_pos_bound; lia).
      rewrite Z.mod_small by lia. lia.
    + rewrite digits_go_acc, value_go_append.
      rewrite pow10_succ in Hn.
      rewrite IH.
      * cbn [Decimal.value_go].
        rewrite digitChar_code by (apply Z.mod_pos_bound; lia).
        pose proof (Z.div_mod n 10 ltac:(lia)).
        pose proof (Z.mod_pos_bound n 10 ltac:(lia)). lia.
      * split; [apply Z.div_pos; lia|].
        apply Z.div_lt_upper_bound; lia.
Qed.

Lemma digits_fuel (n : Z) :
  0 <= n -> n < 10 ^ Z.of_nat (S (Z.to_nat (Z.log2 n))).
Proof.
  intros Hn. destruct (Z.eq_dec n 0) as [->|Hne]; [reflexivity|].
  pose proof (Z.log2_spec n ltac:(lia)) as [_ Hup].
  pose proof (Z.log2_nonneg n).
  replace (Z.succ (Z.log2 n)) with (Z.of_nat (S (Z.to_nat (Z.log2 n)))) in Hup
    by lia.
  pose proof (pow2_le_pow10 (S (Z.to_nat (Z.log2 n)))). lia.
Qed.

(** Reading the digits of a non-negative integer gives it back. *)
Lemma value_digits (n : Z) : 0 <= n -> Decimal.value (digits n) = n.
Proof.
  intros Hn. unfold Decimal.value, digits.
  apply value_digits_go. split; [assumption|now apply digits_fuel].
Qed.

Lemma parseInt_minus_digits (r : string) :
  test_digits r = true -> parseInt (String "-" r) = Int (- Decimal.value r).
Proof.
  unfold test_digits. intros [Hne Hs]%andb_true_iff.
  destruct r as [|c r]; [discriminate|].
  cbn [allDigits] in Hs. apply andb_true_iff in Hs as [Hc Hr].
  unfold parseInt. cbn [trimStart].
  change (isWhiteSpace "-") with false. cbn iota.
  change (Ascii.eqb "-" "-") with true. cbn iota.
  rewrite (allDigits_no_marker c "0" "x" r Hr eq_refl).
  rewrite (allDigits_no_marker c "0" "X" r Hr eq_refl).
  cbn [orb parseDigits].
  rewrite (radixDigit_decimal c Hc).
  rewrite (parseDigits_decimal r _ Hr).
  unfold Decimal.value. cbn [Decimal.value_go default].
  f_equal; lia.
Qed.

End RoundTrips.

(* ===================================================================== *)
(** ** Further properties of [src/utils.ts] *)
(* ===================================================================== *)

Module UtilsMore.
Import JS Utils JSFacts RoundTrips Search.

(** *** [parseTimestamp] *)

Section Timestamps.
Variable Date_parse : string -> number.

(** X1: a non-negative safe integer and its decimal string are normalised alike:
    both are returned, divided, or rejected together. *)
Theorem parseTimestamp_string_as_number (z : Z) :
  0 <= z <= 2 ^ 53 ->
  parseTimestamp Date_parse (Str (toString (Int z)))
    = parseTimestamp Date_parse (Num (Int z)).
Proof.
  intros [Hz _]. rewrite (UtilsProps.toString_nonneg z Hz).
  unfold parseTimestamp, Str, Num.
  rewrite (test_digits_digits z Hz).
  rewrite (parseInt_digits _ (test_digits_digits z Hz)).
  rewrite (value_digits z Hz). reflexivity.
Qed.

(** X2: a timestamp in milliseconds and the same instant in seconds give the
    same result, the seconds. *)
Theorem parseTimestamp_millis_as_seconds (secs ms : Z) :
  10 ^ 9 <= secs < 10 ^ 10 -> 0 <= ms < 1000 ->
  parseTimestamp Date_parse (Num (Int (1000 * secs + ms)))
    = Return (Defined (Int secs)) /\
  parseTimestamp Date_parse (Num (Int secs)) = Return (Defined (Int secs)).
Proof.
  intros Hs Hms.
  assert (H10 : String.length (toString (Int secs)) = 10%nat)
    by (apply UtilsProps.length_ten; lia).
  assert (H13 : String.length (toString (Int (1000 * secs + ms))) = 13%nat)
    by (apply UtilsProps.length_thirteen; lia).
  rewrite !UtilsProps.parseTimestamp_number_by_length, H10, H13.
  split; [|reflexivity].
  cbn [Nat.eqb floor_div]. do 3 f_equal.
  symmetry. apply (Z.div_unique _ 1000 secs ms); lia.
Qed.

(** X3: on non-negative safe integers the normalisation is idempotent: what
    it returns, it returns again unchanged. *)
Theorem parseTimestamp_number_idempotent (z : Z) (r : number) :
  0 <= z <= 2 ^ 53 ->
  parseTimestamp Date_parse (Num (Int z)) = Return (Defined r) ->
  parseTimestamp Date_parse (Num r) = Return (Defined r).
Proof.
  intros [Hz _]. rewrite UtilsProps.parseTimestamp_number_by_length.
  destruct (Nat.eqb_spec (String.length (toString (Int z))) 10) as [H10|_].
  - intros [= <-].
    rewrite UtilsProps.parseTimestamp_number_by_length, H10. reflexivity.
  - destruct (Nat.eqb_spec (String.length (toString (Int z))) 13) as [H13|_];
      [|discriminate].
    intros [= <-]. cbn [floor_div].
    apply UtilsProps.length_thirteen in H13; [|assumption].
    assert (Hq : 10 ^ 9 <= z / 1000 < 10 ^ 10).
    { split.
      - apply Z.div_le_lower_bound; lia.
      - apply Z.div_lt_upper_bound; lia. }
    assert (H10 : String.length (toString (Int (z / 1000))) = 10%nat)
      by (apply UtilsProps.length_ten; lia).
    rewrite UtilsProps.parseTimestamp_number_by_length, H10. reflexivity.
Qed.

(** X4: leading zeros of a digit string do not count: the string is judged
    by the number it denotes, not by its own length. *)
Theorem parseTimestamp_leading_zero (s : string) :
  test_digits s = true ->
  parseTimestamp Date_parse (Str (String "0" s))
    = parseTimestamp Date_parse (Str s).
Proof.
  intros Hs.
  assert (H0 : test_digits (String "0" s) = true).
  { unfold test_digits in *. apply andb_true_iff in Hs as [_ Hs].
    cbn [truthy_string allDigits andb]. now rewrite Hs. }
  unfold parseTimestamp, Str. rewrite Hs, H0.
  rewrite (parseInt_digits _ Hs), (parseInt_digits _ H0).
  reflexivity.
Qed.

(** X5: the date branch checks no length: for an instant before 10^9
    seconds the function returns a number of seconds that it rejects when
    given back as a number. *)
Theorem parseTimestamp_early_date_not_reaccepted (s : string) (ms : Z) :
  test_digits s = false ->
  Date_parse (with_utc_marker s) = Int ms ->
  0 <= ms < 10 ^ 12 ->
  parseTimestamp Date_parse (Str s) = Return (Defined (Int (ms / 1000))) /\
  parseTimestamp Date_parse (Num (Int (ms / 1000))) = Throw "Invalid timestamp".
Proof.
  intros Hs Hd Hms. split.
  - unfold parseTimestamp, Str. rewrite Hs, Hd. reflexivity.
  - assert (Hq : 0 <= ms / 1000 < 10 ^ 9).
    { split; [apply Z.div_pos; lia|apply Z.div_lt_upper_bound; lia]. }
    rewrite UtilsProps.parseTimestamp_number_by_length.
    destruct (Nat.eqb_spec (String.length (toString (Int (ms / 1000)))) 10)
      as [H10|_].
    { apply UtilsProps.length_ten in H10; lia. }
    destruct (Nat.eqb_spec (String.length (toString (Int (ms / 1000)))) 13)
      as [H13|_].
    { apply UtilsProps.length_thirteen in H13; lia. }
    reflexivity.
Qed.

End Timestamps.

Lemma parseTimestamp_string_as_number_witness :
  parseTimestamp IsoDate.Date_parse (Str (toString (Int 1529002377)))
    = parseTimestamp IsoDate.Date_parse (Num (Int 1529002377)).
Proof.
  apply (parseTimestamp_string_as_number IsoDate.Date_parse 1529002377). lia.
Defined.

Lemma parseTimestamp_millis_as_seconds_witness :
  parseTimestamp IsoDate.Date_parse (Num (Int (1000 * 1529002377 + 999)))
    = Return (Defined (Int 1529002377)) /\
  parseTimestamp IsoDate.Date_parse (Num (Int 1529002377))
    = Return (Defined (Int 1529002377)).
Proof.
  apply (parseTimestamp_millis_as_seconds IsoDate.Date_parse 1529002377 999);
    lia.
Defined.

Lemma parseTimestamp_number_idempotent_witness :
  parseTimestamp IsoDate.Date_parse (Num (Int 1529002377))
    = Return (Defined (Int 1529002377)).
Proof.
  apply (parseTimestamp_number_idempotent IsoDate.Date_parse
           1529002377999 (Int 1529002377)).
  - lia.
  - reflexivity.
Defined.

Lemma parseTimestamp_leading_zero_witness :
  parseTimestamp IsoDate.Date_parse (Str "0152900237")
    = parseTimestamp IsoDate.Date_parse (Str "152900237").
Proof.
  apply (parseTimestamp_leading_zero IsoDate.Date_parse "152900237").
  reflexivity.
Defined.

Lemma parseTimestamp_early_date_not_reaccepted_witness :
  parseTimestamp IsoDate.Date_parse (Str "1999-12-31T23:59:59.500")
    = Return (Defined (Int (946684799500 / 1000))) /\
  parseTimestamp IsoDate.Date_parse (Num (Int (946684799500 / 1000)))
    = Throw "Invalid timestamp".
Proof.
  apply (parseTimestamp_early_date_not_reaccepted IsoDate.Date_parse
           "1999-12-31T23:59:59.500" 946684799500).
  - reflexivity.
  - reflexivity.
  - lia.
Defined.

(** *** [parseLimit] *)

(** X6: the result is [NaN] exactly when the raw limit is a non-empty string
    in which [parseInt] finds no integer; a [NaN] default or a [NaN] raw
    number never gets through. *)
Theorem parseLimit_NaN_iff (m : Z)
    (limit : optional (string + number)) (defaultLimit : optional number) :
  parseLimit (Int m) limit defaultLimit = NaN <->
  exists s : string, limit = Str s /\ s <> "" /\ parseInt s = NaN.
Proof.
  unfold parseLimit, Str. split.
  - destruct limit as [| |[s|n]].
    + destruct defaultLimit as [| |[|d]]; cbn; try discriminate;
        try (destruct (m <? 1); discriminate).
      destruct (d =? 0); cbn; [destruct (m <? 1)|destruct (m <? d)];
        discriminate.
    + destruct defaultLimit as [| |[|d]]; cbn; try discriminate;
        try (destruct (m <? 1); discriminate).
      destruct (d =? 0); cbn; [destruct (m <? 1)|destruct (m <? d)];
        discriminate.
    + destruct s as [|c r].
      * destruct defaultLimit as [| |[|d]]; cbn; try discriminate;
          try (destruct (m <? 1); discriminate).
        destruct (d =? 0); cbn; [destruct (m <? 1)|destruct (m <? d)];
          discriminate.
      * cbn [truthy_string]. intros H. exists (String c r).
        split; [reflexivity|]. split; [discriminate|].
        destruct (parseInt (String c r)) as [|v]; [reflexivity|].
        cbn in H. destruct (m <? v); discriminate.
    + destruct n as [|v].
      * destruct defaultLimit as [| |[|d]]; cbn; try discriminate;
          try (destruct (m <? 1); discriminate).
        destruct (d =? 0); cbn; [destruct (m <? 1)|destruct (m <? d)];
          discriminate.
      * cbn [truthy_number]. destruct (v =? 0); cbn [negb].
        -- destruct defaultLimit as [| |[|d]]; cbn; try discriminate;
             try (destruct (m <? 1); discriminate).
           destruct (d =? 0); cbn; [destruct (m <? 1)|destruct (m <? d)];
             discriminate.
        -- cbn. destruct (m <? v); discriminate.
  - intros (s & -> & Hs & Hnan).
    apply truthy_string_true in Hs. rewrite Hs, Hnan. reflexivity.
Qed.

Lemma parseLimit_NaN_iff_witness :
  parseLimit (Int 1000) (Str "ten") (Defined (Int 10)) = NaN.
Proof.
  apply (proj2 (parseLimit_NaN_iff 1000 (Str "ten") (Defined (Int 10)))).
  exists "ten". split; [reflexivity|]. split; [discriminate|reflexivity].
Defined.

(** X7: with a safe integer as [maxLimit], a raw limit made of decimal
    digits gives the smaller of the number it denotes and [maxLimit],
    whatever the default is; "0" gives 0 when [maxLimit] is not negative. *)
Theorem parseLimit_digit_string (m : Z) (s : string)
    (defaultLimit : optional number) :
  m <= 2 ^ 53 ->
  test_digits s = true ->
  parseLimit (Int m) (Str s) defaultLimit = Int (Z.min (Decimal.value s) m).
Proof.
  intros _ Hs. unfold parseLimit, Str.
  assert (Ht : truthy_string s = true)
    by (unfold test_digits in Hs; now apply andb_true_iff in Hs as [? _]).
  rewrite Ht, (parseInt_digits s Hs). cbn [gt].
  destruct (Z.ltb_spec m (Decimal.value s)); f_equal; lia.
Qed.

Lemma parseLimit_digit_string_witness :
  parseLimit (Int 1000) (Str "5000") (Defined (Int 10)) = Int 1000 /\
  parseLimit (Int 1000) (Str "0") (Defined (Int 10)) = Int 0.
Proof.
  split.
  - apply (parseLimit_digit_string 1000 "5000" (Defined (Int 10)));
      [lia|reflexivity].
  - apply (parseLimit_digit_string 1000 "0" (Defined (Int 10)));
      [lia|reflexivity].
Defined.

(** X8: a raw limit given as a safe integer and the same limit given as its
    decimal string give the same result, except zero: the number 0 counts as
    no limit and leaves the default in place, the string "0" gives 0. *)
Theorem parseLimit_number_or_string (m z : Z) (defaultLimit : optional number) :
  (z <> 0 -> - 2 ^ 53 <= z <= 2 ^ 53 ->
   parseLimit (Int m) (Str (toString (Int z))) defaultLimit
     = parseLimit (Int m) (Num (Int z)) defaultLimit) /\
  parseLimit (Int m) (Num (Int 0)) defaultLimit
    = parseLimit (Int m) Undefined defaultLimit /\
  parseLimit (Int m) (Str (toString (Int 0))) defaultLimit = Int (Z.min 0 m).
Proof.
  split; [|split].
  - intros Hz _.
    assert (Hparse : parseInt (toString (Int z)) = Int z).
    { unfold toString. destruct (Z.ltb_spec z 0) as [Hneg|Hpos].
      - rewrite parseInt_minus_digits by (apply test_digits_digits; lia).
        rewrite value_digits by lia. f_equal. lia.
      - rewrite parseInt_digits by (now apply test_digits_digits).
        now rewrite value_digits. }
    assert (Htruthy : truthy_string (toString (Int z)) = true).
    { unfold toString. destruct (z <? 0); [reflexivity|].
      unfold digits.
      destruct (digits_go_cons (Z.to_nat (Z.log2 z)) z) as (c & r & ->).
      reflexivity. }
    unfold parseLimit, Str, Num. rewrite Htruthy, Hparse.
    cbn [truthy_number]. destruct (Z.eqb_spec z 0); [contradiction|].
    reflexivity.
  - reflexivity.
  - unfold parseLimit, Str. cbn [toString Z.ltb Z.compare truthy_string].
    change (digits 0) with "0". cbn [truthy_string].
    change (parseInt "0") with (Int 0). cbn [gt].
    destruct (Z.ltb_spec m 0); f_equal; lia.
Qed.

Lemma parseLimit_number_or_string_witness :
  parseLimit (Int 1000) (Str (toString (Int (-5)))) (Defined (Int 10))
    = parseLimit (Int 1000) (Num (Int (-5))) (Defined (Int 10)).
Proof.
  apply (proj1 (parseLimit_number_or_string 1000 (-5) (Defined (Int 10))));
    [discriminate|lia].
Defined.

(** *** [parseBlockId] against [formatAddress] *)

Lemma replace_unfold (pat rep s : string) :
  replace pat rep s =
    if startsWith s pat then rep ++ slice (String.length pat) s
    else match s with
         | EmptyString => EmptyString
         | String c r => String c (replace pat rep r)
         end.
Proof. destruct s; reflexivity. Qed.

Lemma includes_unfold (s p : string) :
  includes s p =
    startsWith s p ||
    match s with
    | EmptyString => false
    | String _ r => includes r p
    end.
Proof. destruct s; reflexivity. Qed.

Lemma replace_absent (s : string) :
  includes s "0x" = false -> replace "0x" "" s = s.
Proof.
  induction s as [|c r IH]; rewrite includes_unfold, replace_unfold;
    intros [Hs Hr]%orb_false_iff; rewrite Hs; [reflexivity|].
  now rewrite IH.
Qed.

Lemma replace_present_length (s : string) :
  includes s "0x" = true ->
  (String.length (replace "0x" "" s) + 2 = String.length s)%nat.
Proof.
  induction s as [|c r IH]; rewrite includes_unfold, replace_unfold.
  - discriminate.
  - destruct (startsWith (String c r) "0x") eqn:Hs.
    + intros _. apply startsWith_0x_inv in Hs as [t Ht]. rewrite Ht.
      cbn [String.length slice]. rewrite append_empty_l. lia.
    + cbn [orb]. intros Hr. cbn [String.length]. specialize (IH Hr). lia.
Qed.

(** X9: on a non-empty string [parseBlockId] and [formatAddress] give the
    same result exactly when "0x" is at the start of the string or nowhere
    in it. *)
Theorem parseBlockId_agrees_iff (s : string) :
  s <> "" ->
  parseBlockId (Defined s) = formatAddress (Defined s) <->
  startsWith s "0x" = true \/ includes s "0x" = false.
Proof.
  intros Hne. pose proof (proj2 (truthy_string_true s) Hne) as Ht. split.
  - intros Heq. destruct (startsWith s "0x") eqn:Hs; [now left|right].
    destruct (includes s "0x") eqn:Hi; [exfalso|reflexivity].
    unfold parseBlockId, formatAddress in Heq. rewrite Ht, Hs in Heq.
    cbn [negb] in Heq. injection Heq as Heq.
    pose proof (replace_present_length s Hi) as Hlen.
    rewrite Heq in Hlen. lia.
  - intros [Hs|Hi].
    + now apply UtilsProps.parseBlockId_marker.
    + assert (Hs : startsWith s "0x" = false).
      { rewrite includes_unfold in Hi. now apply orb_false_iff in Hi as [? _]. }
      unfold parseBlockId, formatAddress. rewrite Ht, Hs. cbn [negb].
      now rewrite replace_absent.
Qed.

Lemma parseBlockId_agrees_iff_witness :
  parseBlockId (Defined "0xb10c") = formatAddress (Defined "0xb10c") /\
  parseBlockId (Defined "17000000") = formatAddress (Defined "17000000").
Proof.
  split.
  - apply (proj2 (parseBlockId_agrees_iff "0xb10c" ltac:(discriminate))).
    left. reflexivity.
  - apply (proj2 (parseBlockId_agrees_iff "17000000" ltac:(discriminate))).
    right. reflexivity.
Defined.

(** X10: from a non-empty block identifier [parseBlockId] removes two
    characters when the identifier holds "0x" anywhere, and none otherwise:
    at most one occurrence goes, and the result is always a string. *)
Theorem parseBlockId_length (s : string) :
  s <> "" ->
  exists t : string,
    parseBlockId (Defined s) = Defined t /\
    (includes s "0x" = true ->
     (String.length t + 2 = String.length s)%nat) /\
    (includes s "0x" = false -> t = s).
Proof.
  intros Hne. exists (replace "0x" "" s).
  unfold parseBlockId. rewrite (proj2 (truthy_string_true s) Hne).
  split; [reflexivity|]. split.
  - apply replace_present_length.
  - apply replace_absent.
Qed.

Lemma parseBlockId_length_witness :
  exists t : string,
    parseBlockId (Defined "0x0xab") = Defined t /\
    (includes "0x0xab" "0x" = true ->
     (String.length t + 2 = String.length "0x0xab")%nat) /\
    (includes "0x0xab" "0x" = false -> t = "0x0xab").
Proof.
  apply (parseBlockId_length "0x0xab"). discriminate.
Defined.

(** *** [APIErrorResponse], twice *)

(** X12: two error responses in a row leave both records in the log, in
    the order sent and after what was there; when they share path and
    status their counter is two higher, otherwise each counter is one
    higher. *)
Theorem APIErrorResponse_twice
    (ctx1 ctx2 : Context) (status1 status2 : Z) (code1 code2 : string)
    (err1 err2 : thrown) (w : world) :
  let first := APIErrorResponse ctx1 status1 code1 err1 w in
  let second := APIErrorResponse ctx2 status2 code2 err2 (snd first) in
  logged (snd second)
    = (logged w ++ [body (fst first); body (fst second)])%list /\
  ((req_path ctx1, status1) = (req_path ctx2, status2) ->
   request_error (snd second) !! (req_path ctx2, status2)
     = Some (S (S (default O (request_error w !! (req_path ctx2, status2)))))) /\
  ((req_path ctx1, status1) <> (req_path ctx2, status2) ->
   request_error (snd second) !! (req_path ctx1, status1)
     = Some (S (default O (request_error w !! (req_path ctx1, status1)))) /\
   request_error (snd second) !! (req_path ctx2, status2)
     = Some (S (default O (request_error w !! (req_path ctx2, status2))))).
Proof.
  cbn zeta. unfold APIErrorResponse. cbn [fst snd logged request_error body].
  split; [now rewrite <- app_assoc|]. split.
  - intros Heq. rewrite Heq, !UtilsProps.inc_lookup.
    repeat (destruct (decide _); [|contradiction]). reflexivity.
  - intros Hne. rewrite !UtilsProps.inc_lookup.
    repeat match goal with
           | |- context [decide (?a = ?b)] =>
               destruct (decide (a = b)); try congruence
           end.
    split; reflexivity.
Qed.

Lemma APIErrorResponse_twice_witness :
  request_error
    (snd (APIErrorResponse Sample.not_found 404 "route_not_found"
            (ErrString "again")
            (snd (APIErrorResponse Sample.not_found 404 "route_not_found"
                    (ErrString "once") Sample.idle))))
    !! ("/nope", 404)
  = Some 2%nat.
Proof.
  apply (proj1 (proj2 (APIErrorResponse_twice Sample.not_found Sample.not_found
                         404 404 "route_not_found" "route_not_found"
                         (ErrString "once") (ErrString "again") Sample.idle))).
  reflexivity.
Defined.

End UtilsMore.

(* ===================================================================== *)
(** ** Further properties of the usage-endpoint handler *)
(* ===================================================================== *)

Module IndexMore.
Import JS Utils Index JSFacts RoundTrips Routes.

#[local] Arguments startsWith : simpl never.
#[local] Arguments slice : simpl never.
#[local] Arguments toLowerCase : simpl never.

(** X13: the handler does one of two things: it hands over to
    [makeUsageQuery] for the same endpoint and leaves log and counters
    alone, or it answers 400 [bad_query_input] and logs that one record. *)
Theorem handler_dispatches_or_rejects (paths : string -> parameters)
    (endpoint : string) (ctx : Context) (w : world) :
  (exists params : gmap string jsval,
      handler paths endpoint ctx w = (MakeUsageQuery endpoint params, w)) \/
  (exists (r : Response) (w' : world),
      handler paths endpoint ctx w = (Respond r, w') /\
      http_status r = 400 /\ status (body r) = 400 /\
      code (body r) = "bad_query_input" /\
      logged w' = (logged w ++ [body r])%list).
Proof.
  unfold handler.
  destruct (path_params_of paths endpoint ctx),
    (query_params_of paths endpoint ctx);
    [left; eexists; reflexivity| | |];
    right; eexists _, _; repeat split.
Qed.

(** X14: when both sources are valid the parameters handed over hold, for
    every name, the validated query value if there is one and the validated
    path value otherwise; log and counters are untouched. *)
Theorem handler_success_params (paths : string -> parameters)
    (endpoint : string) (ctx : Context) (w : world)
    (path_data query_data : gmap string jsval) :
  path_params_of paths endpoint ctx = Success path_data ->
  query_params_of paths endpoint ctx = Success query_data ->
  exists params : gmap string jsval,
    handler paths endpoint ctx w = (MakeUsageQuery endpoint params, w) /\
    forall k : string,
      params !! k = match query_data !! k with
                    | Some v => Some v
                    | None => path_data !! k
                    end.
Proof.
  intros Hp Hq. exists (query_data ∪ path_data). split.
  - now apply IndexProps.handler_dispatches.
  - intros k. rewrite lookup_union.
    destruct (query_data !! k), (path_data !! k); reflexivity.
Qed.

Lemma handler_success_params_witness :
  exists params : gmap string jsval,
    handler Sample.paths Sample.endpoint
      (Sample.request {["address" := "0xabc"]} {["contract" := "0xdef"]})
      Sample.idle
    = (MakeUsageQuery Sample.endpoint params, Sample.idle) /\
    forall k : string,
      params !! k =
        match ({["contract" := VStr "def"]} : gmap string jsval) !! k with
        | Some v => Some v
        | None => ({["address" := VStr "0xabc"]} : gmap string jsval) !! k
        end.
Proof.
  apply (handler_success_params Sample.paths Sample.endpoint
           (Sample.request {["address" := "0xabc"]} {["contract" := "0xdef"]})
           Sample.idle).
  - vm_compute. reflexivity.
  - vm_compute. reflexivity.
Defined.

(** X15: an endpoint for which neither schema is declared rejects nothing:
    every request is handed over, with the query fields after splitting
    and stripping laid over the raw path fields. *)
Theorem handler_without_schemas (paths : string -> parameters)
    (endpoint : string) (ctx : Context) (w : world) :
  path (paths endpoint) = None -> query (paths endpoint) = None ->
  handler paths endpoint ctx w
    = (MakeUsageQuery endpoint
         (transform (preprocess (req_query ctx)) ∪ raw_object (req_param ctx)),
       w).
Proof.
  intros Hp Hq.
  unfold handler, path_params_of, query_params_of, query_params_schema.
  rewrite Hp, Hq. reflexivity.
Qed.

Lemma handler_without_schemas_witness :
  handler (fun _ => {| path := None; query := None |}) "/anything"
    (Sample.request ∅ {["from" := "0Xab"]}) Sample.idle
  = (MakeUsageQuery "/anything"
       (transform (preprocess {["from" := "0Xab"]}) ∪ raw_object ∅),
     Sample.idle).
Proof.
  exact (handler_without_schemas (fun _ => {| path := None; query := None |})
           "/anything" (Sample.request ∅ {["from" := "0Xab"]}) Sample.idle
           eq_refl eq_refl).
Defined.

(** X16: neither the preprocessing nor the post-processing adds or drops a
    field: a name is present after each exactly when it was before. *)
Theorem fields_preserved (q : gmap string string)
    (data : gmap string jsval) (k : string) :
  (is_Some (preprocess q !! k) <-> is_Some (q !! k)) /\
  (is_Some (transform data !! k) <-> is_Some (data !! k)).
Proof.
  split.
  - destruct (decide (k = "block_range")) as [->|Hne].
    + unfold preprocess, raw_object.
      destruct (q !! "block_range") as [r|] eqn:Hq.
      * destruct (truthy_string r).
        -- rewrite lookup_insert_eq. split; eauto.
        -- rewrite lookup_fmap, Hq. split; eauto.
      * rewrite lookup_fmap, Hq. apply fmap_is_Some.
    + rewrite (IndexProps.preprocess_other_field q k Hne).
      apply fmap_is_Some.
  - destruct (in_dec String.string_dec k addresses) as [Hin|Hout].
    + rewrite (IndexProps.transform_lookup_address data k Hin).
      apply fmap_is_Some.
    + now rewrite (IndexProps.transform_lookup_other data k Hout).
Qed.

(** X17: splitting a non-empty [block_range] loses nothing: the validated
    object holds a non-empty list of strings without a comma, and joining
    them with commas gives the original value. *)
Theorem preprocess_block_range_pieces (q : gmap string string) (r : string) :
  q !! "block_range" = Some r -> r <> "" ->
  exists pieces : list string,
    preprocess q !! "block_range" = Some (VArr (VStr <$> pieces)) /\
    pieces <> [] /\
    join "," pieces = r /\
    Forall (fun piece => hasChar "," piece = false) pieces.
Proof.
  intros Hq Hr. exists (split "," r). split; [|split; [|split]].
  - now apply IndexProps.preprocess_block_range.
  - unfold split. destruct (split_go_cons "," r "") as (a & b & ->).
    discriminate.
  - apply (join_split "," r).
  - apply split_pieces.
Qed.

Lemma preprocess_block_range_pieces_witness :
  exists pieces : list string,
    preprocess {["block_range" := "100,,200"]} !! "block_range"
      = Some (VArr (VStr <$> pieces)) /\
    pieces <> [] /\
    join "," pieces = "100,,200" /\
    Forall (fun piece => hasChar "," piece = false) pieces.
Proof.
  apply (preprocess_block_range_pieces {["block_range" := "100,,200"]}
           "100,,200").
  - apply lookup_singleton_eq.
  - discriminate.
Defined.

(** X11: the two prefix strippers differ on an upper-case marker: the
    post-processing of the query strips "0X" from an address field, while
    [formatAddress] returns a string that begins with "0X" as it is. *)
Theorem upper_case_marker (data : gmap string jsval) (prop r : string) :
  In prop addresses ->
  data !! prop = Some (VStr (String "0" (String "X" r))) ->
  transform data !! prop = Some (VStr r) /\
  formatAddress (Defined (String "0" (String "X" r)))
    = Defined (String "0" (String "X" r)).
Proof.
  intros Hin Hd. split; [|reflexivity].
  rewrite (IndexProps.transform_lookup_address data prop Hin), Hd.
  reflexivity.
Qed.

Lemma upper_case_marker_witness :
  transform {["to" := VStr "0XAB"]} !! "to" = Some (VStr "AB") /\
  formatAddress (Defined "0XAB") = Defined "0XAB".
Proof.
  apply (upper_case_marker {["to" := VStr "0XAB"]} "to" "AB").
  - right. right. right. left. reflexivity.
  - apply lookup_singleton_eq.
Defined.

End IndexMore.

(* ===================================================================== *)
(** ** Properties of the route patterns and the fixed endpoints *)
(* ===================================================================== *)

Module RoutesProps.
Import JS Utils Index JSFacts RoundTrips Routes.

(** *** [toHonoPath] *)

Lemma go_plain (s : string) :
  hasChar "{" s = false -> toHonoPath_go s None = s.
Proof.
  induction s as [|c r IH]; cbn [hasChar toHonoPath_go]; [reflexivity|].
  intros [Hc Hr]%orb_false_iff. rewrite Hc, IH by assumption. reflexivity.
Qed.

Lemma go_prefix (pre s : string) :
  hasChar "{" pre = false ->
  toHonoPath_go (pre ++ s) None = pre ++ toHonoPath_go s None.
Proof.
  induction pre as [|c r IH]; [reflexivity|].
  cbn [hasChar]. intros [Hc Hr]%orb_false_iff.
  rewrite !append_cons. cbn [toHonoPath_go]. rewrite Hc, IH by assumption.
  reflexivity.
Qed.

Lemma go_pending_closed (name : string) :
  forall read post : string,
    hasChar "}" name = false -> read ++ name <> "" ->
    toHonoPath_go (name ++ String "}" post) (Some read)
      = String ":" ((read ++ name) ++ toHonoPath_go post None).
Proof.
  induction name as [|c r IH]; intros read post Hname Hne.
  - rewrite append_empty_l, append_empty_r in *. cbn [toHonoPath_go].
    change (Ascii.eqb "}" "}") with true. cbn iota.
    now rewrite (proj2 (truthy_string_true read) Hne).
  - cbn [hasChar] in Hname. apply orb_false_iff in Hname as [Hc Hr].
    rewrite append_cons. cbn [toHonoPath_go]. rewrite Hc.
    rewrite (IH (read ++ String c "") post Hr).
    + now rewrite (append_assoc read (String c "") r).
    + rewrite append_assoc. destruct read; discriminate.
Qed.

Lemma go_pending_open (rest : string) :
  forall read : string,
    hasChar "}" rest = false ->
    toHonoPath_go rest (Some read) = String "{" (read ++ rest).
Proof.
  induction rest as [|c r IH]; intros read Hrest.
  - cbn [toHonoPath_go]. now rewrite append_empty_r.
  - cbn [hasChar] in Hrest. apply orb_false_iff in Hrest as [Hc Hr].
    cbn [toHonoPath_go]. rewrite Hc, (IH _ Hr).
    now rewrite (append_assoc read (String c "") r).
Qed.

(** X18: a placeholder [{name}] with a non-empty name becomes [:name]: the
    text before it, if it has no opening brace, is kept, and the rest of the
    pattern is translated in the same way. *)
Theorem toHonoPath_placeholder (pre name post : string) :
  hasChar "{" pre = false -> name <> "" -> hasChar "}" name = false ->
  toHonoPath (pre ++ String "{" (name ++ String "}" post))
    = pre ++ String ":" (name ++ toHonoPath post).
Proof.
  intros Hpre Hne Hname. unfold toHonoPath.
  rewrite (go_prefix pre _ Hpre). cbn [toHonoPath_go].
  change (Ascii.eqb "{" "{") with true. cbn iota.
  rewrite (go_pending_closed name "" post Hname) by now rewrite append_empty_l.
  now rewrite append_empty_l.
Qed.

Lemma toHonoPath_placeholder_witness :
  toHonoPath "/balances/{address}/transfers/{contract}"
    = "/balances/" ++ String ":" ("address" ++ toHonoPath "/transfers/{contract}").
Proof.
  apply (toHonoPath_placeholder "/balances/" "address" "/transfers/{contract}");
    [reflexivity|discriminate|reflexivity].
Defined.

(** X19: what is not a placeholder stays: a pattern without an opening brace
    is unchanged, so is an opening brace that no closing brace follows, and
    so is an empty pair of braces. *)
Theorem toHonoPath_unchanged (pre rest : string) :
  hasChar "{" pre = false ->
  toHonoPath pre = pre /\
  (hasChar "}" rest = false ->
   toHonoPath (pre ++ String "{" rest) = pre ++ String "{" rest) /\
  toHonoPath (pre ++ String "{" (String "}" rest))
    = pre ++ String "{" (String "}" (toHonoPath rest)).
Proof.
  intros Hpre. unfold toHonoPath. split; [now apply go_plain|]. split.
  - intros Hrest. rewrite (go_prefix pre _ Hpre). cbn [toHonoPath_go].
    change (Ascii.eqb "{" "{") with true. cbn iota.
    now rewrite (go_pending_open rest "" Hrest), append_empty_l.
  - rewrite (go_prefix pre _ Hpre). cbn [toHonoPath_go].
    change (Ascii.eqb "{" "{") with true. cbn iota.
    change (Ascii.eqb "}" "}") with true. cbn iota.
    reflexivity.
Qed.

Lemma toHonoPath_unchanged_witness :
  toHonoPath "/version" = "/version" /\
  toHonoPath ("/a/" ++ String "{" "open") = "/a/" ++ String "{" "open".
Proof.
  split.
  - apply (proj1 (toHonoPath_unchanged "/version" "" eq_refl)).
  - apply (proj1 (proj2 (toHonoPath_unchanged "/a/" "open" eq_refl))).
    reflexivity.
Defined.

(** *** The fixed endpoints *)

Lemma APIErrorResponse_recorded (ctx : Context) (status : Z) (code : string)
    (err : thrown) (w : world) :
  error_recorded ctx w (snd (APIErrorResponse ctx status code err w))
                 (fst (APIErrorResponse ctx status code err w)) /\
  http_status (fst (APIErrorResponse ctx status code err w)) = status.
Proof.
  unfold error_recorded, APIErrorResponse.
  cbn [fst snd body http_status Utils.status logged request_error].
  repeat split. rewrite UtilsProps.inc_lookup.
  destruct (decide _); [reflexivity|contradiction].
Qed.

(** X20: no handler of [index.ts] sends an API error that is not recorded,
    and none records anything else: [/head], [/health], the not-found
    handler and the usage handler either leave log and counters as they
    were, or answer with an error (500, 500, 404, 400) whose record is the
    one new log entry and whose counter went up by one. *)
Theorem handlers_record_their_errors (ctx : Context) (w : world) :
  (forall result : thrown + list head_row,
      match head result ctx w with
      | (ReplyError r, w') => error_recorded ctx w w' r /\ http_status r = 500
      | (_, w') => w' = w
      end) /\
  (forall response : ping_result,
      match health response ctx w with
      | (ReplyError r, w') => error_recorded ctx w w' r /\ http_status r = 500
      | (_, w') => w' = w
      end) /\
  (forall method : string,
      error_recorded ctx w (snd (notFound method ctx w))
                     (fst (notFound method ctx w)) /\
      http_status (fst (notFound method ctx w)) = 404) /\
  (forall (paths : string -> parameters) (endpoint : string),
      match handler paths endpoint ctx w with
      | (Respond r, w') => error_recorded ctx w w' r /\ http_status r = 400
      | (MakeUsageQuery _ _, w') => w' = w
      end).
Proof.
  split; [|split; [|split]].
  - intros [err|[|row rest]]; cbn [head]; [|reflexivity|reflexivity].
    pose proof (APIErrorResponse_recorded ctx 500 "bad_database_response" err w).
    destruct (APIErrorResponse ctx 500 "bad_database_response" err w).
    assumption.
  - intros [|msg]; cbn [health]; [reflexivity|].
    pose proof (APIErrorResponse_recorded ctx 500 "bad_database_response"
                  (ErrString msg) w).
    destruct (APIErrorResponse ctx 500 "bad_database_response" (ErrString msg) w).
    assumption.
  - intros method. apply APIErrorResponse_recorded.
  - intros paths endpoint. unfold handler.
    destruct (path_params_of paths endpoint ctx),
      (query_params_of paths endpoint ctx); try reflexivity;
      match goal with
      | |- context [APIErrorResponse ?c ?s ?k ?e ?w0] =>
          pose proof (APIErrorResponse_recorded c s k e w0);
          destruct (APIErrorResponse c s k e w0)
      end; assumption.
Qed.

(** X21: [/head] answers with the first row of the result and ignores the
    others; with an empty result it answers nothing at all, and that is the
    only case in which it does; a failed query gives a
    [bad_database_response] error whose message is that of the failure. *)
Theorem head_answers (result : thrown + list head_row)
    (ctx : Context) (w : world) :
  (fst (head result ctx w) = ReplyNothing <-> result = inr []) /\
  (forall (row : head_row) (rest : list head_row),
      result = inr (row :: rest) -> head result ctx w = (ReplyHead row, w)) /\
  (forall err : thrown,
      result = inl err ->
      exists r : Response,
        fst (head result ctx w) = ReplyError r /\
        code (body r) = "bad_database_response" /\
        message (body r) = error_message err).
Proof.
  split; [|split].
  - destruct result as [err|[|row rest]]; cbn [head fst].
    + unfold APIErrorResponse. cbn [fst]. split; discriminate.
    + split; reflexivity.
    + split; discriminate.
  - intros row rest ->. reflexivity.
  - intros err ->. cbn [head]. unfold APIErrorResponse. cbn [fst].
    eexists. repeat split.
Qed.

Lemma head_answers_witness :
  head (inr [ {| block_num := 17; block_hash := "ab" |};
              {| block_num := 16; block_hash := "cd" |} ])
       Sample.not_found Sample.idle
  = (ReplyHead {| block_num := 17; block_hash := "ab" |}, Sample.idle).
Proof.
  apply (proj1 (proj2 (head_answers
           (inr [ {| block_num := 17; block_hash := "ab" |};
                  {| block_num := 16; block_hash := "cd" |} ])
           Sample.not_found Sample.idle))
         _ [ {| block_num := 16; block_hash := "cd" |} ]).
  reflexivity.
Defined.

End RoutesProps.

(* ===================================================================== *)
(** ** Properties of the token-transfers route *)
(* ===================================================================== *)

Module TransfersProps.
Import JS RoundTrips Transfers.

Lemma append_cancel_r (a b r : string) : a ++ r = b ++ r -> a = b.
Proof.
  revert b. induction a as [|x a IH]; intros b H.
  - destruct b as [|y b]; [reflexivity|].
    apply (f_equal String.length) in H.
    rewrite append_empty_l, append_cons in H. cbn [String.length] in H.
    rewrite append_length in H. lia.
  - destruct b as [|y b].
    + apply (f_equal String.length) in H.
      rewrite append_empty_l, append_cons in H. cbn [String.length] in H.
      rewrite append_length in H. lia.
    + rewrite !append_cons in H. injection H as -> H.
      now rewrite (IH b H).
Qed.

(** X22: the address is bound, never spliced: the SQL text is the same for
    every address, there is one query, and the parameters hold the address
    under the name [address] and nothing else. *)
Theorem route_binds_address (database query_chain_id : option string)
    (address other : string) :
  queries (route database query_chain_id address)
    = queries (route database query_chain_id other) /\
  List.length (queries (route database query_chain_id address)) = 1%nat /\
  params (route database query_chain_id address) !! "address" = Some address /\
  (forall k : string,
      k <> "address" ->
      params (route database query_chain_id address) !! k = None).
Proof.
  unfold route. cbn [queries params].
  split; [reflexivity|]. split; [reflexivity|]. split.
  - apply lookup_singleton_eq.
  - intros k Hk. now apply lookup_singleton_ne.
Qed.

Lemma route_binds_address_witness :
  params (route None (Some "mainnet") "abc") !! "chain_id" = None.
Proof.
  apply (proj2 (proj2 (proj2 (route_binds_address None (Some "mainnet")
                                "abc" "def")))).
  discriminate.
Defined.

(** X23: the table comes from the configured database when there is one,
    and then the chain id plays no part; without it the chain id is spliced
    into the SQL text as it is, so two different chain ids give two
    different texts; a missing chain id counts as "mainnet". *)
Theorem route_table (query_chain_id : option string) (address : string) :
  (forall (db : string) (other : option string),
      route (Some db) query_chain_id address = route (Some db) other address) /\
  (forall c1 c2 : string,
      c1 <> c2 ->
      queries (route None (Some c1) address)
        <> queries (route None (Some c2) address)) /\
  (forall database : option string,
      route database None address = route database (Some "mainnet") address).
Proof.
  split; [|split].
  - intros db other. reflexivity.
  - intros c1 c2 Hne. unfold route, TABLE. cbn [queries].
    intros [= H]. apply String.app_inj in H.
    rewrite !append_assoc in H. now apply append_cancel_r in H.
  - intros database. reflexivity.
Qed.

Lemma route_table_witness :
  queries (route None (Some "mainnet") "abc")
    <> queries (route None (Some "mainnet.x; DROP") "abc").
Proof.
  apply (proj1 (proj2 (route_table None "abc")) "mainnet" "mainnet.x; DROP").
  discriminate.
Defined.

End TransfersProps.

(* ===================================================================== *)
(** ** Properties of [getAddress] *)
(* ===================================================================== *)

Module AddressProps.
Import JS JSFacts Address.

(** X24: [getAddress] has three outcomes.  It throws "Missing [key]
    parameter" exactly when the address is required and empty; it throws
    "Invalid address" exactly when the address is not empty and
    [isAddress] rejects it; otherwise it returns the address unchanged.
    So a returned address is empty (and was optional) or valid. *)
Theorem getAddress_outcomes (isAddress : string -> bool)
    (address key : string) (required : bool) :
  (getAddress isAddress address key required
     = Throw ("Missing [" ++ key ++ "] parameter")
   <-> address = "" /\ required = true) /\
  (address <> "" ->
   getAddress isAddress address key required
     = if isAddress address then Return address else Throw "Invalid address") /\
  (forall v : string,
      getAddress isAddress address key required = Return v ->
      v = address /\
      (address = "" /\ required = false \/
       address <> "" /\ isAddress address = true)).
Proof.
  unfold getAddress, checkValidAddress.
  destruct address as [|c r]; cbn [truthy_string negb].
  - rewrite andb_true_r. destruct required; cbn iota.
    + split; [|split].
      * split; [now intros _|reflexivity].
      * congruence.
      * discriminate.
    + split; [|split].
      * split; [discriminate|intros [_ H]; discriminate H].
      * congruence.
      * intros v [= <-]. split; [reflexivity|left; now split].
  - rewrite andb_false_r. cbn iota.
    destruct (isAddress (String c r)) eqn:Hvalid; cbn [negb]; cbn iota.
    + split; [|split].
      * split; [discriminate|intros [H _]; discriminate H].
      * reflexivity.
      * intros v [= <-]. split; [reflexivity|right; now split].
    + split; [|split].
      * split; [|intros [H _]; discriminate H].
        intros H. inversion H.
      * reflexivity.
      * discriminate.
Qed.

Lemma getAddress_outcomes_witness :
  getAddress isHexAddress "0xdAC17F958D2ee523a2206206994597C13D831ec7"
             "contract" true
    = Return "0xdAC17F958D2ee523a2206206994597C13D831ec7" /\
  getAddress isHexAddress "" "contract" true
    = Throw "Missing [contract] parameter".
Proof.
  split.
  - apply (proj1 (proj2 (getAddress_outcomes isHexAddress
             "0xdAC17F958D2ee523a2206206994597C13D831ec7" "contract" true))).
    discriminate.
  - apply (proj2 (proj1 (getAddress_outcomes isHexAddress "" "contract" true))).
    split; reflexivity.
Defined.

End AddressProps.
